(** * The gesture engine of mouse_macro (backend.py, class GestureEngine)

    A shallow embedding of the recognition core: the 64-entry sample
    buffer, the speed/direction estimator, the activation gate and the
    macro matcher, followed by the properties of the specification.

    Numbers are kept as the program has them.  Pixel coordinates are Python
    integers and become [Z]; time stamps, speeds and thresholds are Python
    floats, that is IEEE-754 binary64, and become Rocq's primitive [float],
    whose operations are the same correctly rounded ones.  The three
    functions the program takes from the C math library (hypot, atan2 and
    the fmod under Python's float [%]) form the interface [Libm]; the
    general statements hold for every implementation of it.

    The direction strings "U", "R", "D", "L" are the four constructors of
    [Dir].  The callbacks [on_hit] and [on_match] are the events that
    [push] returns, in the order of the calls.  The canvas metrics, which
    the program keeps in module-level variables, are a record passed to
    the functions that read them. *)

From Stdlib Require Import Ascii String ZArith QArith List Bool Floats Lia.
From Stdlib Require Import Permutation Sorted.
Import ListNotations.

Set Implicit Arguments.
#[local] Set Warnings "-inexact-float".

#[local] Open Scope Z_scope.

(* ================================================================== *)
(** ** Python built-ins used by the engine *)

Module Py.

(** [float(n)] for a Python integer: round to nearest, ties to even. *)
Definition float_of_int (z : Z) : float :=
  SF2Prim (binary_normalize prec emax z 0 false).

(** The number a finite float stands for: its significand times a power
    of two.  The infinities and NaN stand for none. *)
Definition float_value (f : float) : option Q :=
  match Prim2SF f with
  | S754_zero _ => Some 0%Q
  | S754_finite sgn m e =>
    Some (inject_Z (if sgn then Z.neg m else Z.pos m) * Qpower 2 e)%Q
  | _ => None
  end.

(** [f < n] and [f >= n] for a float [f] and an integer [n].  Python does
    not convert the integer: it compares the two numbers themselves, so
    the answer is the same however large [n] is.  Minus infinity is below
    and plus infinity above every integer; NaN compares false. *)
Definition float_lt_int (f : float) (n : Z) : bool :=
  match float_value f with
  | Some q => negb (Qle_bool (inject_Z n) q)
  | None => (f =? neg_infinity)%float
  end.

Definition float_ge_int (f : float) (n : Z) : bool :=
  match float_value f with
  | Some q => Qle_bool (inject_Z n) q
  | None => (f =? infinity)%float
  end.

(** [max(a, b)]: the first argument unless the second is greater. *)
Definition max (a b : float) : float :=
  if (a <? b)%float then b else a.

(** [l[-i]] for 1 <= i <= len(l). *)
Definition neg_index {A} (l : list A) (i : nat) (dflt : A) : A :=
  nth (length l - i) l dflt.

(** [l[-n:]].  Python reads [-0] as [0], so [l[-0:]] is the whole list;
    a start before the beginning is clamped to it. *)
Definition slice_from_neg {A} (n : nat) (l : list A) : list A :=
  match n with
  | O => l
  | S _ => skipn (length l - n) l
  end.

(** [sum(l)] over integers. *)
Definition sum (l : list Z) : Z := fold_left Z.add l 0.

(** [sorted(vals)] over floats: a stable sort that only asks [x < y].
    On values that [<] orders, that is on lists without NaN, the result
    of a stable sort is determined, and this is it.  A NaN is neither
    below nor above any value; where CPython leaves it depends on the run
    detection of its list sort, which is not modelled, so on a list
    holding a NaN this function need not return Python's list. *)
Fixpoint insert (x : float) (l : list float) : list float :=
  match l with
  | [] => [x]
  | y :: l' => if (x <? y)%float then x :: l else y :: insert x l'
  end.

Definition sorted (vals : list float) : list float :=
  fold_left (fun acc x => insert x acc) vals [].

(** [deque(maxlen=m).append(x)]: the oldest entry leaves a full deque. *)
Definition deque_append {A} (maxlen : nat) (q : list A) (x : A) : list A :=
  let q' := q ++ [x] in
  skipn (length q' - maxlen) q'.

End Py.

(* ================================================================== *)
(** ** The C math library *)

Class Libm : Type := {
  hypot : float -> float -> float;
  atan2 : float -> float -> float;
  fmod  : float -> float -> float
}.

(** [math.degrees(x)] multiplies by the binary64 constant 180/pi. *)
Definition degrees (x : float) : float := (x * 57.29577951308232)%float.

(** Python's [v % w] on floats (floatobject.c, float_rem) for a divisor
    [w] that is not zero: C's fmod, moved to the sign of the divisor. *)
Definition float_rem `{Libm} (v w : float) : float :=
  let m := fmod v w in
  if (m =? 0)%float then (if (w <? 0)%float then (-0)%float else 0%float)
  else if xorb (w <? 0)%float (m <? 0)%float then (m + w)%float
  else m.

(* ================================================================== *)
(** ** Data model *)

(** The direction symbols "U", "R", "D", "L". *)
Inductive Dir : Set := U | R | D | L.

Definition Dir_eqb (a b : Dir) : bool :=
  match a, b with
  | U, U | R, R | D, D | L, L => true
  | _, _ => false
  end.

Fixpoint pattern_eqb (p q : list Dir) : bool :=
  match p, q with
  | [], [] => true
  | a :: p', b :: q' => Dir_eqb a b && pattern_eqb p' q'
  | _, _ => false
  end.

(** The fields of [Settings] the engine reads. *)
Record Settings : Type := {
  speed_threshold_px_s : float;
  reset_radius_px : Z;
  debounce_ms : Z;
  require_reset_between_hits : bool;
  angle_mode : string
}.

Record Macro : Type := {
  pattern : list Dir;
  key : string;
  name : string
}.

(** The module-level canvas metrics [W], [H], [CX], [CY], which the user
    interface reassigns when the canvas is resized. *)
Record Canvas : Type := {
  W : Z;
  H : Z;
  CX : Z;
  CY : Z
}.

Definition BAND_X : Z := 24.
Definition BAND_Y : Z := 24.

(** A buffered sample [(t, x, y)]. *)
Abbreviation Sample := (float * Z * Z)%type (only parsing).

Definition sample0 : Sample := (0%float, 0, 0).

(** The attributes of a [GestureEngine] instance.  The two callbacks are
    rendered by the events that [push] returns. *)
Record GestureEngine : Type := {
  s : Settings;
  samples : list Sample;
  seq : list Dir;
  last_accept_ts : float;
  inside_reset : bool;
  need_reset : bool;
  last_dir : option Dir;
  speed_median : float;
  last_above_threshold_ts : float;
  last_sample_ts : float;
  macros : list Macro
}.

Inductive Event : Type :=
| on_hit (d : Dir)
| on_match (m : Macro).

(* ================================================================== *)
(** ** Construction, reconfiguration, reset *)

Definition init (settings : Settings) : GestureEngine :=
  {| s := settings;
     samples := [];
     seq := [];
     last_accept_ts := 0;
     inside_reset := false;
     need_reset := false;
     last_dir := None;
     speed_median := 0;
     last_above_threshold_ts := 0;
     last_sample_ts := 0;
     macros := [] |}.

Definition update_settings (e : GestureEngine) (s' : Settings) : GestureEngine :=
  {| s := s';
     samples := samples e;
     seq := seq e;
     last_accept_ts := last_accept_ts e;
     inside_reset := inside_reset e;
     need_reset := need_reset e;
     last_dir := last_dir e;
     speed_median := speed_median e;
     last_above_threshold_ts := last_above_threshold_ts e;
     last_sample_ts := last_sample_ts e;
     macros := macros e |}.

Definition set_macros (e : GestureEngine) (ms : list Macro) : GestureEngine :=
  {| s := s e;
     samples := samples e;
     seq := seq e;
     last_accept_ts := last_accept_ts e;
     inside_reset := inside_reset e;
     need_reset := need_reset e;
     last_dir := last_dir e;
     speed_median := speed_median e;
     last_above_threshold_ts := last_above_threshold_ts e;
     last_sample_ts := last_sample_ts e;
     macros := ms |}.

(** [reset(t)] with the time given; without one the program reads the
    clock and goes on in the same way. *)
Definition reset (e : GestureEngine) (t : float) : GestureEngine :=
  {| s := s e;
     samples := [];
     seq := [];
     last_accept_ts := 0;
     inside_reset := false;
     need_reset := false;
     last_dir := None;
     speed_median := 0;
     last_above_threshold_ts := 0;
     last_sample_ts := t;
     macros := macros e |}.

(* ================================================================== *)
(** ** Speed and direction estimator *)

Definition _median (vals : list float) : float :=
  match vals with
  | [] => 0%float
  | _ =>
    let v := Py.sorted vals in
    let n := length v in
    let m := (n / 2)%nat in
    if negb (Nat.eqb (n mod 2) 0) then nth m v 0%float
    else (0.5 * (nth (m - 1) v 0 + nth m v 0))%float
  end.

Section Estimator.
Context `{Libm}.

(** The loop variable [i] of [range(1, min(6, len(self.samples)))]. *)
Definition pair_range (buf : list Sample) : list nat :=
  List.seq 1 (Nat.min 6 (length buf) - 1).

(** One turn of the loop: the pair [samples[-i-1]], [samples[-i]]. *)
Definition pair_at (buf : list Sample) (i : nat) : float * Z * Z :=
  let '(t0, x0, y0) := Py.neg_index buf (i + 1) sample0 in
  let '(t1, x1, y1) := Py.neg_index buf i sample0 in
  let dt := Py.max 1e-4 (t1 - t0)%float in
  let dx := x1 - x0 in
  let dy := y1 - y0 in
  let v := (hypot (Py.float_of_int dx) (Py.float_of_int dy) / dt)%float in
  (v, dx, dy).

(** The sector of an angle in degrees. *)
Definition sector (a : float) : Dir :=
  if ((a <=? 45) || (315 <? a))%float then R
  else if (a <=? 135)%float then U
  else if (a <=? 225)%float then L
  else D.

(** The angle [a] of the angle mode. *)
Definition angle_deg (dx_sum dy_sum : Z) : float :=
  let ang := degrees (atan2 (Py.float_of_int (- dy_sum)) (Py.float_of_int dx_sum)) in
  float_rem (ang + 360)%float 360%float.

Definition quantize (mode : string) (dx_sum dy_sum : Z) : Dir :=
  if String.eqb mode "axis" then
    if Z.abs dy_sum <? Z.abs dx_sum
    then (if 0 <? dx_sum then R else L)
    else (if 0 <? dy_sum then D else U)
  else sector (angle_deg dx_sum dy_sum).

(** The result is [(v_med, dirc, (dx_sum, dy_sum))]; [None] is the
    undetermined direction. *)
Definition _compute_speed_and_dir (cfg : Settings) (buf : list Sample)
  : float * option Dir * (Z * Z) :=
  if (length buf <? 3)%nat then (0%float, None, (0, 0))
  else
    let prs := map (pair_at buf) (pair_range buf) in
    let speeds := map (fun p => fst (fst p)) prs in
    let dxs := map (fun p => snd (fst p)) prs in
    let dys := map (fun p => snd p) prs in
    let v_med := _median speeds in
    let dx_sum := Py.sum (Py.slice_from_neg 3 dxs) in
    let dy_sum := Py.sum (Py.slice_from_neg 3 dys) in
    (v_med, Some (quantize (angle_mode cfg) dx_sum dy_sum), (dx_sum, dy_sum)).

End Estimator.

(* ================================================================== *)
(** ** Activation gate *)

Definition _in_band (cv : Canvas) (x y : Z) (d : Dir) : bool :=
  match d with
  | U => y <=? BAND_Y
  | D => H cv - BAND_Y <=? y
  | L => x <=? BAND_X
  | R => W cv - BAND_X <=? x
  end.

Definition _inside_reset_circle (cv : Canvas) (cfg : Settings) (x y : Z) : bool :=
  (x - CX cv) ^ 2 + (y - CY cv) ^ 2 <=? reset_radius_px cfg ^ 2.

(** [v >= threshold] and [v < threshold], the two readings of the speed. *)
Definition above_threshold (cfg : Settings) (v : float) : bool :=
  (speed_threshold_px_s cfg <=? v)%float.

Definition below_threshold (cfg : Settings) (v : float) : bool :=
  (v <? speed_threshold_px_s cfg)%float.

(** [(now - last_accept_ts) * 1000.0 < debounce_ms]: the elapsed time is
    a float, [debounce_ms] an integer. *)
Definition elapsed_ms (now last : float) : float := ((now - last) * 1000)%float.

Definition debounced (cfg : Settings) (now last : float) : bool :=
  Py.float_lt_int (elapsed_ms now last) (debounce_ms cfg).

Definition interlocked (cfg : Settings) (need : bool) : bool :=
  require_reset_between_hits cfg && need.

(* ================================================================== *)
(** ** Sequence matcher *)

(** [len(seq) >= len(m.pattern) and seq[-len(m.pattern):] == m.pattern]. *)
Definition macro_matches (sq : list Dir) (m : Macro) : bool :=
  (length (pattern m) <=? length sq)%nat
  && pattern_eqb (Py.slice_from_neg (length (pattern m)) sq) (pattern m).

(** The [for m in self.macros] loop up to its [break]. *)
Fixpoint scan_macros (sq : list Dir) (ms : list Macro) : option Macro :=
  match ms with
  | [] => None
  | m :: ms' => if macro_matches sq m then Some m else scan_macros sq ms'
  end.

(** The tail of [push] once a hit is accepted. *)
Definition accept (e : GestureEngine) (now : float) (d : Dir)
  : GestureEngine * list Event :=
  let sq := seq e ++ [d] in
  let need := if require_reset_between_hits (s e) then true else need_reset e in
  let found := match macros e with [] => None | _ => scan_macros sq (macros e) end in
  let mk := fun sq' =>
    {| s := s e;
       samples := samples e;
       seq := sq';
       last_accept_ts := now;
       inside_reset := inside_reset e;
       need_reset := need;
       last_dir := last_dir e;
       speed_median := speed_median e;
       last_above_threshold_ts := last_above_threshold_ts e;
       last_sample_ts := last_sample_ts e;
       macros := macros e |} in
  match found with
  | Some m => (mk [], [on_hit d; on_match m])
  | None => (mk sq, [on_hit d])
  end.

(* ================================================================== *)
(** ** The engine's [push] *)

Section Engine.
Context `{Libm}.

(** The head of [push], down to the update of the activity marker:
    reset-circle tracking, buffering, estimation.  The estimate stays
    readable in [speed_median] and [last_dir]. *)
Definition observe (cv : Canvas) (e : GestureEngine) (t : float) (x y : Z)
  : GestureEngine :=
  let was := inside_reset e in
  let ins := _inside_reset_circle cv (s e) x y in
  let need :=
    if ins && negb was
    then (if require_reset_between_hits (s e) then false else need_reset e)
    else need_reset e in
  let buf := Py.deque_append 64 (samples e) (t, x, y) in
  let '(v, d, _) := _compute_speed_and_dir (s e) buf in
  let above :=
    match d with
    | Some _ => if above_threshold (s e) v then t else last_above_threshold_ts e
    | None => last_above_threshold_ts e
    end in
  {| s := s e;
     samples := buf;
     seq := seq e;
     last_accept_ts := last_accept_ts e;
     inside_reset := ins;
     need_reset := need;
     last_dir := d;
     speed_median := v;
     last_above_threshold_ts := above;
     last_sample_ts := t;
     macros := macros e |}.

Definition push (cv : Canvas) (e : GestureEngine) (t : float) (x y : Z)
  : GestureEngine * list Event :=
  let e1 := observe cv e t x y in
  let v := speed_median e1 in
  let now := t in
  match last_dir e1 with
  | None => (e1, [])
  | Some d =>
    if below_threshold (s e1) v then (e1, [])
    else
      let '(_, xh, yh) := Py.neg_index (samples e1) 1 sample0 in
      if negb (_in_band cv xh yh d) then (e1, [])
      else if debounced (s e1) now (last_accept_ts e1) then (e1, [])
      else if interlocked (s e1) (need_reset e1) then (e1, [])
      else accept e1 now d
  end.

(** Feeding a list of samples, oldest first; the notifications of all
    the pushes in the order they were made. *)
Fixpoint run (cv : Canvas) (e : GestureEngine) (inp : list Sample)
  : GestureEngine * list Event :=
  match inp with
  | [] => (e, [])
  | (t, x, y) :: inp' =>
    let '(e1, ev1) := push cv e t x y in
    let '(e2, ev2) := run cv e1 inp' in
    (e2, ev1 ++ ev2)
  end.

End Engine.

(** The hit notifications among the events. *)
Fixpoint hits (evs : list Event) : list Dir :=
  match evs with
  | [] => []
  | on_hit d :: evs' => d :: hits evs'
  | on_match _ :: evs' => hits evs'
  end.

Fixpoint matches (evs : list Event) : list Macro :=
  match evs with
  | [] => []
  | on_hit _ :: evs' => matches evs'
  | on_match m :: evs' => m :: matches evs'
  end.

(* ================================================================== *)
(** ** A math library to run the model with

    [hypot_sqrt] is the correctly rounded root of the sum of squares; it
    is hypot itself wherever that sum is exact and a perfect square, as
    for motion along one axis.  [fmod_exact] is C's fmod, whose result is
    always representable.  [atan2_compass] gives atan2 on the eight
    compass directions, for arguments that come from integers, and
    leaves the other arguments undefined (nan). *)

Definition hypot_sqrt (x y : float) : float := sqrt (x * x + y * y)%float.

Definition fmod_exact (x y : float) : float :=
  match Prim2SF x, Prim2SF y with
  | S754_nan, _ | _, S754_nan => nan
  | S754_infinity _, _ => nan
  | _, S754_zero _ => nan
  | S754_zero _, _ => x
  | S754_finite _ _ _, S754_infinity _ => x
  | S754_finite sx mx ex, S754_finite _ my ey =>
    let e := Z.min ex ey in
    let r := (Zpos mx * 2 ^ (ex - e)) mod (Zpos my * 2 ^ (ey - e)) in
    SF2Prim (binary_normalize prec emax (if sx then - r else r) e sx)
  end.

Definition atan2_compass (y x : float) : float :=
  let pos := fun v => (0 <? v)%float in
  let neg := fun v => (v <? 0)%float in
  let zer := fun v => (v =? 0)%float in
  if zer y && pos x then 0%float
  else if pos y && (y =? x)%float then 0.7853981633974483%float
  else if pos y && zer x then 1.5707963267948966%float
  else if pos y && (y =? - x)%float then 2.356194490192345%float
  else if zer y && neg x then 3.141592653589793%float
  else if neg y && (y =? x)%float then (-2.356194490192345)%float
  else if neg y && zer x then (-1.5707963267948966)%float
  else if neg y && (y =? - x)%float then (-0.7853981633974483)%float
  else nan.

Definition libm_run : Libm :=
  {| hypot := hypot_sqrt; atan2 := atan2_compass; fmod := fmod_exact |}.

(** The canvas of the module as loaded: 420 by 420, centre (210, 210). *)
Definition canvas420 : Canvas := {| W := 420; H := 420; CX := 210; CY := 210 |}.

(** The default [Settings()]. *)
Definition default_settings : Settings :=
  {| speed_threshold_px_s := 1000;
     reset_radius_px := 50;
     debounce_ms := 50;
     require_reset_between_hits := false;
     angle_mode := "axis" |}.

(* ================================================================== *)
(** ** Scenarios and reference notions of the specification *)

(** A point of the canvas: a pixel of [0,W) x [0,H). *)
Definition in_canvas (cv : Canvas) (x y : Z) : Prop :=
  0 <= x < W cv /\ 0 <= y < H cv.

(** What construction and [reset] leave behind. *)
Definition fresh (cfg : Settings) (e : GestureEngine) : Prop :=
  e = init cfg \/ exists e0 t0, s e0 = cfg /\ e = reset e0 t0.

(** The settings of the end-to-end scenario; the reset radius and the
    interlock switch are left open. *)
Definition scenario_settings (radius : Z) (interlock : bool) : Settings :=
  {| speed_threshold_px_s := 1000;
     reset_radius_px := radius;
     debounce_ms := 50;
     require_reset_between_hits := interlock;
     angle_mode := "axis" |}.

(** The three samples of the end-to-end scenario, the first at time [t0]. *)
Definition upward_stroke (t0 t1 t2 : float) : list Sample :=
  [(t0, 210, 210); (t1, 210, 60); (t2, 210, 5)].

(** Feeding accepted hits one after the other, as the gate would. *)
Fixpoint feed (e : GestureEngine) (hs : list (float * Dir))
  : GestureEngine * list Event :=
  match hs with
  | [] => (e, [])
  | (now, d) :: hs' =>
    let '(e1, ev1) := accept e now d in
    let '(e2, ev2) := feed e1 hs' in
    (e2, ev1 ++ ev2)
  end.

(** A motion qualifies when, debounce apart, the gate lets it through:
    direction determined, speed not below the threshold, point inside the
    band of the direction, no reset pending under the interlock. *)
Definition qualifies `{Libm} (cv : Canvas) (e : GestureEngine)
  (t : float) (x y : Z) (d : Dir) : Prop :=
  let e1 := observe cv e t x y in
  last_dir e1 = Some d
  /\ below_threshold (s e) (speed_median e1) = false
  /\ _in_band cv x y d = true
  /\ interlocked (s e) (need_reset e1) = false.

Definition macro_A : Macro := {| pattern := [U; U]; key := "a"; name := "A" |}.
Definition macro_B : Macro := {| pattern := [U]; key := "b"; name := "B" |}.

(** A macro fires on a sequence when its pattern is not empty and is the
    sequence's suffix of that length. *)
Definition fires (sq : list Dir) (m : Macro) : Prop :=
  pattern m <> [] /\ exists front, sq = front ++ pattern m.

Definition nonempty_pattern (m : Macro) : bool :=
  match pattern m with [] => false | _ :: _ => true end.

(** The direction window in the specification's words: of the up to five
    consecutive pairs of the last six samples, the three most recent. *)
Fixpoint deltas (l : list Sample) : list (Z * Z) :=
  match l with
  | (_, x0, y0) :: (((_, x1, y1) :: _) as l') => (x1 - x0, y1 - y0) :: deltas l'
  | _ => []
  end.

Definition newest3_sums (buf : list Sample) : Z * Z :=
  let w := Py.slice_from_neg 3 (deltas (Py.slice_from_neg 6 buf)) in
  (Py.sum (map fst w), Py.sum (map snd w)).

(** The same with the three oldest pairs of those five. *)
Definition oldest3_sums (buf : list Sample) : Z * Z :=
  let w := firstn 3 (deltas (Py.slice_from_neg 6 buf)) in
  (Py.sum (map fst w), Py.sum (map snd w)).

(** Three steps to the right followed by two steps up. *)
Definition right_then_up : list Sample :=
  [(1%float, 100, 200); (1.01%float, 130, 200); (1.02%float, 160, 200);
   (1.03%float, 190, 200); (1.04%float, 190, 150); (1.05%float, 190, 100)].

(* ================================================================== *)
(** ** The application around the engine

    The parts of [App] that feed the engine and edit its macro list.
    Clock readings ([time.time()]) and the texts of the entry fields are
    arguments; drawing is left out.  Pointer positions are the integers
    the mouse listener reports. *)

(** The canvas the application sets up from a stored or entered size:
    [W = max(200, int(..))], [H] likewise, [CX, CY = W // 2, H // 2]. *)
Definition app_canvas (width height : Z) : Canvas :=
  let w := Z.max 200 width in
  let h := Z.max 200 height in
  {| W := w; H := h; CX := w / 2; CY := h / 2 |}.

(** The attributes of [App] that the pump loop reads and writes: the
    engine, the virtual cursor, the last pointer position seen and the
    trace, a deque of at most [trace_maxlen] points. *)
Record App : Type := {
  engine : GestureEngine;
  vx : Z;
  vy : Z;
  last_global_xy : option (Z * Z);
  trace_maxlen : nat;
  trace : list (Z * Z)
}.

Section AppModel.
Context `{Libm}.

(** [_recenter_virtual_cursor], with the two clock readings [t_reset]
    and [t0]; it also reassigns the centre of the canvas. *)
Definition _recenter_virtual_cursor (cv : Canvas) (a : App)
  (t_reset t0 : float) : Canvas * App * list Event :=
  let cx := W cv / 2 in
  let cy := H cv / 2 in
  let cv' := {| W := W cv; H := H cv; CX := cx; CY := cy |} in
  let e0 := reset (engine a) t_reset in
  let '(e1, ev1) := push cv' e0 t0 cx cy in
  let '(e2, ev2) := push cv' e1 (t0 + 0.01)%float cx cy in
  (cv',
   {| engine := e2;
      vx := cx;
      vy := cy;
      last_global_xy := last_global_xy a;
      trace_maxlen := trace_maxlen a;
      trace := Py.deque_append (trace_maxlen a) [] (cx, cy) |},
   ev1 ++ ev2).

(** One turn of the [while True] loop of [_pump] on the queue entry
    [(t, x, y)]. *)
Definition pump_item (cv : Canvas) (a : App) (item : Sample)
  : App * list Event :=
  let '(t, x, y) := item in
  match last_global_xy a with
  | None =>
    ({| engine := engine a;
        vx := vx a;
        vy := vy a;
        last_global_xy := Some (x, y);
        trace_maxlen := trace_maxlen a;
        trace := trace a |}, [])
  | Some (lx, ly) =>
    let dx := x - lx in
    let dy := y - ly in
    let vx' := Z.max 0 (Z.min (W cv - 1) (vx a + dx)) in
    let vy' := Z.max 0 (Z.min (H cv - 1) (vy a + dy)) in
    let '(e', evs) := push cv (engine a) t vx' vy' in
    ({| engine := e';
        vx := vx';
        vy := vy';
        last_global_xy := Some (x, y);
        trace_maxlen := trace_maxlen a;
        trace := Py.deque_append (trace_maxlen a) (trace a) (vx', vy') |}, evs)
  end.

(** The loop until the queue is empty. *)
Fixpoint pump_drain (cv : Canvas) (a : App) (queue : list Sample)
  : App * list Event :=
  match queue with
  | [] => (a, [])
  | item :: queue' =>
    let '(a1, ev1) := pump_item cv a item in
    let '(a2, ev2) := pump_drain cv a1 queue' in
    (a2, ev1 ++ ev2)
  end.

(** [_pump] without its drawing: [active] is the test that pumping is
    neither paused nor switched off, [queue] the entries waiting,
    [now] the clock after the loop, [inactivity_reset_ms] the setting of
    that name. *)
Definition _pump (cv : Canvas) (a : App) (active : bool)
  (queue : list Sample) (now t_reset t0 : float) (inactivity_reset_ms : Z)
  : Canvas * App * list Event :=
  let '(a1, evs) := if active then pump_drain cv a queue else (a, []) in
  let ts := last_above_threshold_ts (engine a1) in
  let last_delib := if (ts =? 0)%float then 0%float else ts in
  if Py.float_ge_int ((now - last_delib) * 1000)%float inactivity_reset_ms
  then
    if (1 <? Z.abs (vx a1 - CX cv)) || (1 <? Z.abs (vy a1 - CY cv))
    then
      let '(cv', a2, evs') := _recenter_virtual_cursor cv a1 t_reset t0 in
      (cv', a2, evs ++ evs')
    else (cv, a1, evs)
  else (cv, a1, evs).

End AppModel.

(** The invariant of the data model: the cursor and every buffered sample
    are points of the canvas. *)
Definition in_canvas_sample (cv : Canvas) (smp : Sample) : Prop :=
  in_canvas cv (snd (fst smp)) (snd smp).

Definition app_in_canvas (cv : Canvas) (a : App) : Prop :=
  in_canvas cv (vx a) (vy a)
  /\ Forall (in_canvas_sample cv) (samples (engine a)).

(** The letters of a pattern text that name a direction.  A text is the
    string of its UTF-8 bytes; only the ASCII letters U, R, D, L pass
    the test [c in "URDL"], so going through the bytes keeps what going
    through the characters keeps. *)
Definition dir_of_ascii (c : Ascii.ascii) : option Dir :=
  if Ascii.eqb c "U"%char then Some U
  else if Ascii.eqb c "R"%char then Some R
  else if Ascii.eqb c "D"%char then Some D
  else if Ascii.eqb c "L"%char then Some L
  else None.

Fixpoint pattern_of_text (u : string) : list Dir :=
  match u with
  | EmptyString => []
  | String c u' =>
    match dir_of_ascii c with
    | Some d => d :: pattern_of_text u'
    | None => pattern_of_text u'
    end
  end.

Inductive AddResult : Type :=
| invalid_pattern
| invalid_output
| added (ms : list Macro).

Section MacroEditing.

(** Python's [str.upper] and [str.strip]. *)
Variable upper : string -> string.
Variable strip : string -> string.

(** [_add_macro] on the texts of the three entry fields: the new macro
    list, or the warning shown. *)
Definition _add_macro (ms : list Macro) (build_seq build_key build_name : string)
  : AddResult :=
  let pat := pattern_of_text (upper build_seq) in
  match pat with
  | [] => invalid_pattern
  | _ :: _ =>
    let k := strip build_key in
    if String.eqb k "" then invalid_output
    else added (ms ++ [{| pattern := pat; key := k; name := strip build_name |}])
  end.

End MacroEditing.

(** [del self.store.macros[idx]] for the selected index; [None] stands
    for the IndexError of an index past the end. *)
Definition _del_selected_macro (ms : list Macro) (idx : nat)
  : option (list Macro) :=
  if (idx <? length ms)%nat then Some (firstn idx ms ++ skipn (S idx) ms)
  else None.

(** A run in which the cursor never enters the reset circle from
    outside; [was] tells whether it was inside before. *)
Fixpoint no_entry (cv : Canvas) (cfg : Settings) (was : bool)
  (inp : list Sample) : bool :=
  match inp with
  | [] => true
  | (_, x, y) :: inp' =>
    let ins := _inside_reset_circle cv cfg x y in
    negb (ins && negb was) && no_entry cv cfg ins inp'
  end.

(** The times of the samples of a run that were notified as hits. *)
Fixpoint hit_times `{Libm} (cv : Canvas) (e : GestureEngine)
  (inp : list Sample) : list float :=
  match inp with
  | [] => []
  | (t, x, y) :: inp' =>
    let '(e1, evs) := push cv e t x y in
    match hits evs with
    | [] => hit_times cv e1 inp'
    | _ :: _ => t :: hit_times cv e1 inp'
    end
  end.

(** Times each of which passes the debounce test against the one
    before it, the first against [last]. *)
Fixpoint paced (cfg : Settings) (last : float) (ts : list float) : Prop :=
  match ts with
  | [] => True
  | t :: ts' => debounced cfg t last = false /\ paced cfg t ts'
  end.

(** A float is strictly below an integer: it is minus infinity, or the
    number it stands for is less than the integer. *)
Definition exactly_below (f : float) (n : Z) : Prop :=
  f = neg_infinity
  \/ exists q : Q, Py.float_value f = Some q /\ (q < inject_Z n)%Q.

(** How many values of a list are less than [x], and how many greater. *)
Definition count_lt (x : float) (l : list float) : nat :=
  length (filter (fun v => (v <? x)%float) l).

Definition count_gt (x : float) (l : list float) : nat :=
  length (filter (fun v => (x <? v)%float) l).

(** No value of the list is a NaN. *)
Definition nan_free (l : list float) : Prop :=
  Forall (fun v => (v =? v)%float = true) l.

(** The position of a sample. *)
Definition position (smp : Sample) : Z * Z := (snd (fst smp), snd smp).

(* ================================================================== *)
(** * Properties *)

(** ** The order of binary64 values *)

Module FloatOrder.

Ltac cmp_cases :=
  repeat match goal with
  | |- context [Pos.compare_cont Eq ?a ?b] =>
      change (Pos.compare_cont Eq a b) with (Pos.compare a b)
  | H : context [Pos.compare_cont Eq ?a ?b] |- _ =>
      change (Pos.compare_cont Eq a b) with (Pos.compare a b) in H
  end;
  repeat match goal with
  | |- context [Z.compare ?a ?b] => destruct (Z.compare_spec a b)
  | H : context [Z.compare ?a ?b] |- _ => destruct (Z.compare_spec a b)
  | |- context [Pos.compare ?a ?b] => destruct (Pos.compare_spec a b)
  | H : context [Pos.compare ?a ?b] |- _ => destruct (Pos.compare_spec a b)
  end;
  simpl in *; try congruence; try lia.

Ltac by_cases3 a b c :=
  destruct a as [[]|[]| |[] ? ?], b as [[]|[]| |[] ? ?], c as [[]|[]| |[] ? ?];
  simpl; try congruence; cmp_cases.

Lemma SFcompare_antisym (a b : spec_float) :
  SFcompare b a = option_map CompOpp (SFcompare a b).
Proof.
  destruct a as [[]|[]| |[] ? ?], b as [[]|[]| |[] ? ?];
    simpl; try reflexivity; cmp_cases.
Qed.

Lemma SF_le_lt_trans (a b c : spec_float) :
  SFleb a b = true -> SFltb b c = true -> SFltb a c = true.
Proof. unfold SFleb, SFltb. by_cases3 a b c. Qed.

Lemma SF_lt_le_trans (a b c : spec_float) :
  SFltb a b = true -> SFleb b c = true -> SFltb a c = true.
Proof. unfold SFleb, SFltb. by_cases3 a b c. Qed.

Lemma ltb_leb (x y : float) :
  (x <? y)%float = true -> (x <=? y)%float = true.
Proof.
  rewrite ltb_spec, leb_spec. unfold SFltb, SFleb.
  destruct (SFcompare (Prim2SF x) (Prim2SF y)) as [[]|]; simpl; congruence.
Qed.

Lemma ltb_not_leb (x y : float) :
  (x <? y)%float = true -> (y <=? x)%float = false.
Proof.
  rewrite ltb_spec, leb_spec. unfold SFltb, SFleb.
  rewrite (SFcompare_antisym (Prim2SF x) (Prim2SF y)).
  destruct (SFcompare (Prim2SF x) (Prim2SF y)) as [[]|]; simpl; congruence.
Qed.

Lemma leb_not_ltb (x y : float) :
  (x <=? y)%float = true -> (y <? x)%float = false.
Proof.
  rewrite ltb_spec, leb_spec. unfold SFltb, SFleb.
  rewrite (SFcompare_antisym (Prim2SF x) (Prim2SF y)).
  destruct (SFcompare (Prim2SF x) (Prim2SF y)) as [[]|]; simpl; congruence.
Qed.

Lemma leb_ltb_trans (x y z : float) :
  (x <=? y)%float = true -> (y <? z)%float = true -> (x <? z)%float = true.
Proof. rewrite !ltb_spec, leb_spec. apply SF_le_lt_trans. Qed.

Lemma ltb_leb_trans (x y z : float) :
  (x <? y)%float = true -> (y <=? z)%float = true -> (x <? z)%float = true.
Proof. rewrite !ltb_spec, leb_spec. apply SF_lt_le_trans. Qed.

End FloatOrder.

(** ** Comparing a float with an integer *)

(** On a finite float the two answers of [f < n] are the two orders of
    the numbers. *)
Lemma float_lt_int_value (f : float) (n : Z) (q : Q) :
  Py.float_value f = Some q ->
  (Py.float_lt_int f n = true <-> (q < inject_Z n)%Q)
  /\ (Py.float_lt_int f n = false <-> (inject_Z n <= q)%Q).
Proof.
  intros Hq. unfold Py.float_lt_int. rewrite Hq.
  destruct (Qle_bool (inject_Z n) q) eqn:E; simpl.
  - apply Qle_bool_iff in E. split; split; intros Hx; try discriminate; auto.
    exfalso. exact (Qlt_not_le _ _ Hx E).
  - assert (Hlt : (q < inject_Z n)%Q).
    { apply Qnot_le_lt. intros Hle. apply Qle_bool_iff in Hle. congruence. }
    split; split; intros Hx; try discriminate; auto.
    exfalso. exact (Qlt_not_le _ _ Hlt Hx).
Qed.

Lemma eqb_neg_infinity (f : float) :
  (f =? neg_infinity)%float = true <-> f = neg_infinity.
Proof.
  split.
  - rewrite eqb_spec. intros E. apply Prim2SF_inj.
    change (Prim2SF neg_infinity) with (S754_infinity true) in *.
    destruct (Prim2SF f) as [[]|[]| |[] m e]; try discriminate; reflexivity.
  - intros ->. reflexivity.
Qed.

Lemma float_lt_int_spec (f : float) (n : Z) :
  Py.float_lt_int f n = true <-> exactly_below f n.
Proof.
  unfold exactly_below. destruct (Py.float_value f) as [q|] eqn:Hq.
  - rewrite (proj1 (@float_lt_int_value f n q Hq)). split.
    + intros Hlt. right. exists q. auto.
    + intros [-> | (q' & E & Hlt)]; [discriminate Hq |].
      injection E as <-. exact Hlt.
  - unfold Py.float_lt_int. rewrite Hq, eqb_neg_infinity. split; [auto |].
    intros [-> | (q' & E & _)]; [reflexivity | discriminate].
Qed.

(* ------------------------------------------------------------------ *)
(** ** Lists, slices and the sample buffer *)

Lemma pattern_eqb_eq (p q : list Dir) : pattern_eqb p q = true <-> p = q.
Proof.
  revert q; induction p as [|a p IH]; intros [|b q]; simpl;
    try (split; [discriminate | discriminate]); try tauto.
  rewrite andb_true_iff, IH. split.
  - intros [Hab ->]. destruct a, b; simpl in Hab; congruence.
  - intros E; injection E as -> ->. split; [destruct b|]; reflexivity.
Qed.

Lemma skipn_suffix {A} (n : nat) (l : list A) :
  exists front, l = front ++ skipn n l.
Proof. exists (firstn n l). symmetry. apply firstn_skipn. Qed.

Lemma skipn_app_suffix {A} (front p : list A) :
  skipn (length (front ++ p) - length p) (front ++ p) = p.
Proof.
  rewrite length_app.
  replace (length front + length p - length p)%nat with (length front) by lia.
  rewrite skipn_app, Nat.sub_diag, skipn_all. reflexivity.
Qed.

(** The newest entry of the buffer is the sample just appended. *)
Lemma newest_after_append {A} (q : list A) (a dflt : A) :
  Py.neg_index (Py.deque_append 64 q a) 1 dflt = a.
Proof.
  unfold Py.neg_index, Py.deque_append.
  set (k := (length (q ++ [a]) - 64)%nat).
  assert (Hk : (k <= length q)%nat) by (subst k; rewrite length_app; simpl; lia).
  rewrite skipn_app.
  replace (k - length q)%nat with 0%nat by lia. simpl.
  rewrite length_app. simpl.
  rewrite app_nth2 by lia.
  replace (length (skipn k q) + 1 - 1 - length (skipn k q))%nat with 0%nat by lia.
  reflexivity.
Qed.

(** The buffer never holds more than 64 samples. *)
Lemma deque_append_length {A} (q : list A) (a : A) :
  (length q <= 64 -> length (Py.deque_append 64 q a) <= 64)%nat.
Proof.
  intros Hq. unfold Py.deque_append.
  rewrite length_skipn, length_app. simpl. lia.
Qed.

(* ------------------------------------------------------------------ *)
(** ** Reset *)

(** C8: whatever the engine state and the time [t], a second [reset(t)]
    changes nothing after a first one, and the state reached has an empty
    sample buffer, an empty running sequence, no pending reset, the cursor
    counted as outside the reset circle, both time markers at 0 and the
    last sample time at [t]. *)
Theorem reset_idempotent (e : GestureEngine) (t : float) :
  reset (reset e t) t = reset e t
  /\ samples (reset e t) = []
  /\ seq (reset e t) = []
  /\ need_reset (reset e t) = false
  /\ inside_reset (reset e t) = false
  /\ last_accept_ts (reset e t) = 0%float
  /\ last_above_threshold_ts (reset e t) = 0%float
  /\ last_sample_ts (reset e t) = t.
Proof. repeat split. Qed.

(** A reset engine differs from a new one by its macros and its last
    sample time only. *)
Lemma reset_as_init (e : GestureEngine) (t : float) :
  reset e t =
  {| s := s e; samples := []; seq := []; last_accept_ts := 0;
     inside_reset := false; need_reset := false; last_dir := None;
     speed_median := 0; last_above_threshold_ts := 0;
     last_sample_ts := t; macros := macros e |}.
Proof. reflexivity. Qed.

(* ------------------------------------------------------------------ *)
(** ** The reset circle *)

(** C3, amended to what the program does: with a reset radius of 0 the
    inside test holds at the centre [(CX, CY)] of the canvas and nowhere
    else. *)
Theorem zero_radius_circle_is_centre
  (cv : Canvas) (cfg : Settings) (x y : Z) :
  reset_radius_px cfg = 0 ->
  (_inside_reset_circle cv cfg x y = true <-> x = CX cv /\ y = CY cv).
Proof.
  intros Hr. unfold _inside_reset_circle. rewrite Hr, Z.leb_le.
  split.
  - intros Hle. nia.
  - intros [-> ->]. rewrite !Z.sub_diag. simpl. lia.
Qed.

Lemma zero_radius_circle_is_centre_witness :
  reset_radius_px (scenario_settings 0 false) = 0
  /\ (_inside_reset_circle canvas420 (scenario_settings 0 false) 210 210 = true
      <-> 210 = CX canvas420 /\ 210 = CY canvas420).
Proof.
  split; [reflexivity |].
  apply (zero_radius_circle_is_centre canvas420 (scenario_settings 0 false) 210 210).
  reflexivity.
Defined.

(** The specification's reading, that a zero radius never satisfies the
    test, fails at the centre of the 420 by 420 canvas, which is a point
    of the canvas. *)
Lemma zero_radius_circle_holds_centre :
  reset_radius_px (scenario_settings 0 false) = 0
  /\ in_canvas canvas420 210 210
  /\ _inside_reset_circle canvas420 (scenario_settings 0 false) 210 210 = true.
Proof. unfold in_canvas. simpl. repeat split; lia. Qed.

(* ------------------------------------------------------------------ *)
(** ** The direction estimate *)

Section EstimatorFacts.
Context `{Libm}.

(** With three samples or more the estimator answers with the
    quantised window sums it also returns. *)
Lemma estimate_determined (cfg : Settings) (buf : list Sample) :
  (3 <= length buf)%nat ->
  let r := _compute_speed_and_dir cfg buf in
  snd (fst r) = Some (quantize (angle_mode cfg) (fst (snd r)) (snd (snd r))).
Proof.
  intros Hlen. unfold _compute_speed_and_dir.
  destruct (length buf <? 3)%nat eqn:E.
  - apply Nat.ltb_lt in E. lia.
  - reflexivity.
Qed.

Lemma estimate_undetermined (cfg : Settings) (buf : list Sample) :
  (length buf < 3)%nat ->
  _compute_speed_and_dir cfg buf = (0%float, None, (0, 0)).
Proof.
  intros Hlen. unfold _compute_speed_and_dir.
  apply Nat.ltb_lt in Hlen. rewrite Hlen. reflexivity.
Qed.

(** C9: in axis mode, with at least three samples buffered, equal
    magnitudes of the two window sums give the vertical axis: Down when
    the sum of dy is positive and Up otherwise, so Up when both sums
    are 0; the result is never undetermined. *)
Theorem axis_tie_is_vertical (cfg : Settings) (buf : list Sample) :
  angle_mode cfg = "axis"%string ->
  (3 <= length buf)%nat ->
  let r := _compute_speed_and_dir cfg buf in
  let dx_sum := fst (snd r) in
  let dy_sum := snd (snd r) in
  Z.abs dx_sum = Z.abs dy_sum ->
  snd (fst r) = Some (if 0 <? dy_sum then D else U)
  /\ (dx_sum = 0 -> dy_sum = 0 -> snd (fst r) = Some U)
  /\ snd (fst r) <> None.
Proof.
  intros Hmode Hlen r dx_sum dy_sum Htie.
  assert (Hd : snd (fst r) = Some (if 0 <? dy_sum then D else U)).
  { subst r dx_sum dy_sum. rewrite (estimate_determined cfg buf Hlen).
    unfold quantize. rewrite Hmode. simpl String.eqb.
    rewrite Htie, Z.ltb_irrefl. reflexivity. }
  split; [exact Hd | split].
  - intros _ Hy. rewrite Hd, Hy. reflexivity.
  - rewrite Hd. discriminate.
Qed.

(** The four sectors of the angle mode do not overlap. *)
Lemma sector_right (a : float) :
  (a <=? 45)%float = true \/ (315 <? a)%float = true -> sector a = R.
Proof.
  unfold sector. intros [-> | ->]; [| rewrite orb_true_r]; reflexivity.
Qed.

Lemma sector_up (a : float) :
  (45 <? a)%float = true -> (a <=? 135)%float = true -> sector a = U.
Proof.
  intros Hlo Hhi. unfold sector.
  rewrite (@FloatOrder.ltb_not_leb _ _ Hlo).
  rewrite (@FloatOrder.leb_not_ltb _ _
             (@FloatOrder.ltb_leb _ _
                (@FloatOrder.leb_ltb_trans a 135 315 Hhi eq_refl))).
  rewrite Hhi. reflexivity.
Qed.

Lemma sector_left (a : float) :
  (135 <? a)%float = true -> (a <=? 225)%float = true -> sector a = L.
Proof.
  intros Hlo Hhi. unfold sector.
  rewrite (@FloatOrder.ltb_not_leb _ _
             (@FloatOrder.leb_ltb_trans 45 135 a eq_refl Hlo)).
  rewrite (@FloatOrder.leb_not_ltb _ _
             (@FloatOrder.ltb_leb _ _
                (@FloatOrder.leb_ltb_trans a 225 315 Hhi eq_refl))).
  rewrite (@FloatOrder.ltb_not_leb _ _ Hlo), Hhi. reflexivity.
Qed.

Lemma sector_down (a : float) :
  (225 <? a)%float = true -> (a <=? 315)%float = true -> sector a = D.
Proof.
  intros Hlo Hhi. unfold sector.
  rewrite (@FloatOrder.ltb_not_leb _ _
             (@FloatOrder.leb_ltb_trans 45 225 a eq_refl Hlo)).
  rewrite (@FloatOrder.leb_not_ltb _ _ Hhi).
  rewrite (@FloatOrder.ltb_not_leb _ _
             (@FloatOrder.leb_ltb_trans 135 225 a eq_refl Hlo)).
  rewrite (@FloatOrder.ltb_not_leb _ _ Hlo). reflexivity.
Qed.

(** C7: in angle mode, with at least three samples buffered and [a] the
    angle in degrees that the estimator takes from atan2 of the negated
    sum of dy and the sum of dx and brings into [0,360), the direction
    is Right for a <= 45 or a > 315, Up for 45 < a <= 135, Left for
    135 < a <= 225 and Down for 225 < a <= 315; so 45 gives Right, 135
    Up, 225 Left, 315 Down and 316 Right. *)
Theorem angle_mode_sectors (cfg : Settings) (buf : list Sample) :
  angle_mode cfg <> "axis"%string ->
  (3 <= length buf)%nat ->
  let r := _compute_speed_and_dir cfg buf in
  let a := angle_deg (fst (snd r)) (snd (snd r)) in
  let dirc := snd (fst r) in
  ((a <=? 45)%float = true \/ (315 <? a)%float = true -> dirc = Some R)
  /\ ((45 <? a)%float = true /\ (a <=? 135)%float = true -> dirc = Some U)
  /\ ((135 <? a)%float = true /\ (a <=? 225)%float = true -> dirc = Some L)
  /\ ((225 <? a)%float = true /\ (a <=? 315)%float = true -> dirc = Some D)
  /\ (a = 45%float -> dirc = Some R)
  /\ (a = 135%float -> dirc = Some U)
  /\ (a = 225%float -> dirc = Some L)
  /\ (a = 315%float -> dirc = Some D)
  /\ (a = 316%float -> dirc = Some R).
Proof.
  intros Hmode Hlen r a dirc.
  assert (Hd : dirc = Some (sector a)).
  { subst dirc a r. rewrite (estimate_determined cfg buf Hlen).
    unfold quantize. apply String.eqb_neq in Hmode. rewrite Hmode.
    reflexivity. }
  rewrite Hd. clearbody a. clear Hd dirc r.
  repeat split.
  - intros Ha. now rewrite sector_right.
  - intros [Hlo Hhi]. now rewrite sector_up.
  - intros [Hlo Hhi]. now rewrite sector_left.
  - intros [Hlo Hhi]. now rewrite sector_down.
  - intros ->. reflexivity.
  - intros ->. reflexivity.
  - intros ->. reflexivity.
  - intros ->. reflexivity.
  - intros ->. reflexivity.
Qed.

End EstimatorFacts.

(* ------------------------------------------------------------------ *)
(** ** The sequence matcher *)

Lemma slice_empty_pattern (sq : list Dir) : Py.slice_from_neg 0 sq = sq.
Proof. reflexivity. Qed.

(** The test of the loop, read as a relation between the sequence and
    the macro. *)
Lemma macro_matches_fires (sq : list Dir) (m : Macro) :
  sq <> [] -> (macro_matches sq m = true <-> fires sq m).
Proof.
  intros Hsq. unfold macro_matches, fires.
  rewrite andb_true_iff, Nat.leb_le, pattern_eqb_eq.
  destruct (pattern m) as [|a p] eqn:Ep.
  - simpl. split.
    + intros [_ E]. contradiction.
    + intros [Hne _]. contradiction.
  - unfold Py.slice_from_neg. cbn [length]. split.
    + intros [_ E]. split; [discriminate |].
      rewrite <- E. apply skipn_suffix.
    + intros [_ [front ->]]. split.
      * rewrite length_app. simpl. lia.
      * apply (skipn_app_suffix front (a :: p)).
Qed.

Lemma empty_pattern_no_match (sq : list Dir) (m : Macro) :
  sq <> [] -> pattern m = [] -> macro_matches sq m = false.
Proof.
  intros Hsq Hp. unfold macro_matches. rewrite Hp. simpl.
  destruct sq; [contradiction | reflexivity].
Qed.

(** The scan stops at the first macro of the list that fires. *)
Lemma scan_macros_first (sq : list Dir) (ms : list Macro) :
  sq <> [] ->
  match scan_macros sq ms with
  | Some m =>
      exists pre post, ms = pre ++ m :: post /\ fires sq m
                       /\ forall m', In m' pre -> ~ fires sq m'
  | None => forall m', In m' ms -> ~ fires sq m'
  end.
Proof.
  intros Hsq. induction ms as [|m ms IH]; simpl.
  - intros m' [].
  - destruct (macro_matches sq m) eqn:Em.
    + exists [], ms. split; [reflexivity | split].
      * now apply macro_matches_fires.
      * intros m' [].
    + assert (Hm : ~ fires sq m).
      { intros Hf. apply (macro_matches_fires m Hsq) in Hf. congruence. }
      destruct (scan_macros sq ms) as [m0|].
      * destruct IH as (pre & post & -> & Hf & Hpre).
        exists (m :: pre), post. split; [reflexivity | split; [exact Hf |]].
        intros m' [<- | Hin]; auto.
      * intros m' [<- | Hin]; auto.
Qed.

Lemma scan_macros_some (sq : list Dir) (ms : list Macro) (m : Macro) :
  scan_macros sq ms = Some m -> In m ms /\ macro_matches sq m = true.
Proof.
  induction ms as [|m0 ms IH]; simpl; [discriminate |].
  destruct (macro_matches sq m0) eqn:Em.
  - intros E; injection E as <-. auto.
  - intros E. destruct (IH E). auto.
Qed.

(** Macros with an empty pattern may be struck from the list. *)
Lemma scan_macros_filter (sq : list Dir) (ms : list Macro) :
  sq <> [] ->
  scan_macros sq (filter nonempty_pattern ms) = scan_macros sq ms.
Proof.
  intros Hsq. induction ms as [|m ms IH]; simpl; [reflexivity |].
  unfold nonempty_pattern at 1. destruct (pattern m) eqn:Ep.
  - rewrite (empty_pattern_no_match m Hsq Ep). exact IH.
  - simpl. rewrite IH. reflexivity.
Qed.

(** The guard [if self.macros] adds nothing to the loop. *)
Lemma guarded_scan (sq : list Dir) (ms : list Macro) :
  match ms with [] => None | _ => scan_macros sq ms end = scan_macros sq ms.
Proof. destruct ms; reflexivity. Qed.

Lemma snoc_not_nil {A} (l : list A) (a : A) : l ++ [a] <> [].
Proof. destruct l; discriminate. Qed.

(** What [accept] does, by the outcome of the scan. *)
Lemma accept_scan (e : GestureEngine) (now : float) (d : Dir) :
  match scan_macros (seq e ++ [d]) (macros e) with
  | Some m => snd (accept e now d) = [on_hit d; on_match m]
              /\ seq (fst (accept e now d)) = []
  | None => snd (accept e now d) = [on_hit d]
            /\ seq (fst (accept e now d)) = seq e ++ [d]
  end.
Proof.
  unfold accept. rewrite guarded_scan.
  destruct (scan_macros (seq e ++ [d]) (macros e)); split; reflexivity.
Qed.

Lemma accept_hits (e : GestureEngine) (now : float) (d : Dir) :
  hits (snd (accept e now d)) = [d].
Proof.
  generalize (accept_scan e now d).
  destruct (scan_macros _ _); intros [-> _]; reflexivity.
Qed.

Lemma accept_last_accept_ts (e : GestureEngine) (now : float) (d : Dir) :
  last_accept_ts (fst (accept e now d)) = now.
Proof.
  unfold accept. destruct (match macros e with [] => None | _ => _ end); reflexivity.
Qed.

Lemma accept_settings (e : GestureEngine) (now : float) (d : Dir) :
  s (fst (accept e now d)) = s e.
Proof.
  unfold accept. destruct (match macros e with [] => None | _ => _ end); reflexivity.
Qed.

(** C4, amended to what the program does: once the hit is appended, the
    macros are taken in list order and the first one whose pattern is
    not empty and is the suffix of that length of the sequence is
    notified after the hit, the whole sequence is cleared and no later
    macro is looked at; with no such macro the sequence keeps the hit.
    With the macros [Up,Up] -> A and [Up] -> B in this order, the hits
    Up, Up notify B after each of them and never A. *)
Theorem first_macro_in_order_fires :
  (forall (e : GestureEngine) (now : float) (d : Dir),
      let sq := seq e ++ [d] in
      let e' := fst (accept e now d) in
      let evs := snd (accept e now d) in
      (exists pre m post,
          macros e = pre ++ m :: post
          /\ fires sq m
          /\ (forall m', In m' pre -> ~ fires sq m')
          /\ evs = [on_hit d; on_match m]
          /\ seq e' = [])
      \/ ((forall m', In m' (macros e) -> ~ fires sq m')
          /\ evs = [on_hit d]
          /\ seq e' = sq))
  /\ (forall (cfg : Settings) (t1 t2 : float),
         let e := set_macros (init cfg) [macro_A; macro_B] in
         snd (feed e [(t1, U); (t2, U)])
         = [on_hit U; on_match macro_B; on_hit U; on_match macro_B]
         /\ seq (fst (feed e [(t1, U); (t2, U)])) = []).
Proof.
  split.
  - intros e now d sq e' evs.
    generalize (accept_scan e now d).
    generalize (@scan_macros_first sq (macros e) (snoc_not_nil (seq e) d)).
    fold sq. destruct (scan_macros sq (macros e)) as [m|].
    + intros (pre & post & Hms & Hf & Hpre) [Hev Hseq]. left.
      exists pre, m, post. auto.
    + intros Hnone [Hev Hseq]. right. auto.
  - intros cfg t1 t2. split; reflexivity.
Qed.

Lemma hits_app (evs evs' : list Event) :
  hits (evs ++ evs') = hits evs ++ hits evs'.
Proof.
  induction evs as [|[d|m] evs IH]; simpl; [| rewrite IH |]; auto.
Qed.

(* ------------------------------------------------------------------ *)
(** ** The gate inside [push] *)

Section PushFacts.
Context `{Libm}.

Variable cv : Canvas.

Lemma observe_settings e t x y : s (observe cv e t x y) = s e.
Proof.
  unfold observe. destruct (_compute_speed_and_dir _ _) as [[v d] p].
  reflexivity.
Qed.

Lemma observe_seq e t x y : seq (observe cv e t x y) = seq e.
Proof.
  unfold observe. destruct (_compute_speed_and_dir _ _) as [[v d] p].
  reflexivity.
Qed.

Lemma observe_macros e t x y : macros (observe cv e t x y) = macros e.
Proof.
  unfold observe. destruct (_compute_speed_and_dir _ _) as [[v d] p].
  reflexivity.
Qed.

Lemma observe_last_accept_ts e t x y :
  last_accept_ts (observe cv e t x y) = last_accept_ts e.
Proof.
  unfold observe. destruct (_compute_speed_and_dir _ _) as [[v d] p].
  reflexivity.
Qed.

Lemma observe_samples e t x y :
  samples (observe cv e t x y) = Py.deque_append 64 (samples e) (t, x, y).
Proof.
  unfold observe. destruct (_compute_speed_and_dir _ _) as [[v d] p].
  reflexivity.
Qed.

Lemma observe_estimate e t x y :
  (speed_median (observe cv e t x y), last_dir (observe cv e t x y))
  = fst (_compute_speed_and_dir (s e)
           (Py.deque_append 64 (samples e) (t, x, y))).
Proof.
  unfold observe. destruct (_compute_speed_and_dir _ _) as [[v d] p].
  reflexivity.
Qed.

Lemma observe_need_reset e t x y :
  need_reset (observe cv e t x y)
  = if _inside_reset_circle cv (s e) x y && negb (inside_reset e)
    then (if require_reset_between_hits (s e) then false else need_reset e)
    else need_reset e.
Proof.
  unfold observe. destruct (_compute_speed_and_dir _ _) as [[v d] p].
  reflexivity.
Qed.

Lemma observe_keeps_no_reset e t x y :
  need_reset e = false -> need_reset (observe cv e t x y) = false.
Proof.
  intros Hn. rewrite observe_need_reset, Hn.
  destruct (_inside_reset_circle cv (s e) x y && negb (inside_reset e)),
    (require_reset_between_hits (s e)); reflexivity.
Qed.

(** [push] as one decision over the five tests, the band test taken at
    the point that was pushed. *)
Lemma push_gate e t x y :
  push cv e t x y =
  let e1 := observe cv e t x y in
  match last_dir e1 with
  | None => (e1, [])
  | Some d =>
    if below_threshold (s e) (speed_median e1)
       || negb (_in_band cv x y d)
       || debounced (s e) t (last_accept_ts e)
       || interlocked (s e) (need_reset e1)
    then (e1, [])
    else accept e1 t d
  end.
Proof.
  unfold push. cbv zeta.
  rewrite observe_settings, observe_last_accept_ts, observe_samples.
  rewrite (newest_after_append (samples e) (t, x, y) sample0).
  destruct (last_dir (observe cv e t x y)) as [d|]; [| reflexivity].
  destruct (below_threshold _ _); [reflexivity |].
  destruct (_in_band cv x y d); [| reflexivity].
  destruct (debounced _ _ _); [reflexivity |].
  destruct (interlocked _ _); reflexivity.
Qed.

(** A sample that fails one of the five tests is only observed. *)
Lemma push_rejected (e : GestureEngine) (t : float) (x y : Z) :
  let e1 := observe cv e t x y in
  last_dir e1 = None
  \/ below_threshold (s e) (speed_median e1) = true
  \/ (forall d, last_dir e1 = Some d -> _in_band cv x y d = false)
  \/ debounced (s e) t (last_accept_ts e) = true
  \/ interlocked (s e) (need_reset e1) = true ->
  push cv e t x y = (e1, []).
Proof.
  intros e1 Hrej. rewrite push_gate. fold e1. cbv zeta.
  destruct (last_dir e1) as [d|]; [| reflexivity].
  destruct Hrej as [Hd | [Hv | [Hb | [Ht | Hi]]]].
  - discriminate.
  - rewrite Hv. reflexivity.
  - rewrite (Hb d eq_refl), orb_true_r. reflexivity.
  - rewrite Ht, !orb_true_r. reflexivity.
  - rewrite Hi, !orb_true_r. reflexivity.
Qed.

(** C5: a sample that fails one of the five tests (direction
    undetermined, speed below the threshold, point outside the band of
    the direction, less than the debounce time since the last accepted
    hit, reset pending under the interlock) leaves [last_accept_ts] and
    the running sequence as they were and causes neither a hit nor a
    match notification. *)
Theorem rejected_sample_changes_nothing
  (e : GestureEngine) (t : float) (x y : Z) :
  let e1 := observe cv e t x y in
  last_dir e1 = None
  \/ below_threshold (s e) (speed_median e1) = true
  \/ (forall d, last_dir e1 = Some d -> _in_band cv x y d = false)
  \/ debounced (s e) t (last_accept_ts e) = true
  \/ interlocked (s e) (need_reset e1) = true ->
  last_accept_ts (fst (push cv e t x y)) = last_accept_ts e
  /\ seq (fst (push cv e t x y)) = seq e
  /\ snd (push cv e t x y) = [].
Proof.
  intros e1 Hrej. rewrite (@push_rejected e t x y Hrej). simpl.
  rewrite observe_last_accept_ts, observe_seq. auto.
Qed.

Lemma push_qualifying e t x y d :
  qualifies cv e t x y d ->
  push cv e t x y =
  if debounced (s e) t (last_accept_ts e)
  then (observe cv e t x y, [])
  else accept (observe cv e t x y) t d.
Proof.
  intros (Hd & Hv & Hb & Hi). rewrite push_gate. cbv zeta.
  rewrite Hd, Hv, Hb, Hi. simpl. rewrite orb_false_r. reflexivity.
Qed.

(** A hit is only ever notified once the debounce time has passed, and
    it moves [last_accept_ts] to the time of the sample. *)
Lemma push_hit_after_debounce e t x y :
  hits (snd (push cv e t x y)) <> [] ->
  debounced (s e) t (last_accept_ts e) = false
  /\ last_accept_ts (fst (push cv e t x y)) = t
  /\ s (fst (push cv e t x y)) = s e.
Proof.
  rewrite push_gate. cbv zeta.
  destruct (last_dir _) as [d|]; [| intros Hh; now contradiction Hh].
  destruct (debounced (s e) t (last_accept_ts e)).
  - rewrite !orb_true_r. simpl. intros Hh; now contradiction Hh.
  - destruct (_ || _ || _ || _).
    + intros Hh; now contradiction Hh.
    + intros _. rewrite accept_last_accept_ts, accept_settings, observe_settings.
      auto.
Qed.

(** C6: accepted hits are at least the debounce time apart.  The time
    since the last accepted hit is what the program measures,
    [(now - last_accept_ts) * 1000.0] in binary64; let [q] be the number
    this float stands for.  A qualifying motion with [q < debounce_ms]
    is not notified and leaves [last_accept_ts] alone; with
    [debounce_ms <= q], the boundary included, it is notified as a hit
    and moves [last_accept_ts] to its time.  A push notifies a hit only
    when [debounce_ms <= q].  Of two qualifying motions, the first one
    accepted at [t1], only the first is notified when the second comes
    less than [debounce_ms] after [t1], and both are when it comes
    [debounce_ms] or more after it. *)
Theorem debounce_separates_hits :
  (forall e t x y d q,
      qualifies cv e t x y d ->
      Py.float_value (elapsed_ms t (last_accept_ts e)) = Some q ->
      ((q < inject_Z (debounce_ms (s e)))%Q ->
       hits (snd (push cv e t x y)) = []
       /\ last_accept_ts (fst (push cv e t x y)) = last_accept_ts e)
      /\ ((inject_Z (debounce_ms (s e)) <= q)%Q ->
          hits (snd (push cv e t x y)) = [d]
          /\ last_accept_ts (fst (push cv e t x y)) = t))
  /\ (forall e t x y q,
         hits (snd (push cv e t x y)) <> [] ->
         Py.float_value (elapsed_ms t (last_accept_ts e)) = Some q ->
         (inject_Z (debounce_ms (s e)) <= q)%Q)
  /\ (forall e t1 x1 y1 d1 t2 x2 y2 d2 q,
         hits (snd (push cv e t1 x1 y1)) = [d1] ->
         qualifies cv (fst (push cv e t1 x1 y1)) t2 x2 y2 d2 ->
         Py.float_value (elapsed_ms t2 t1) = Some q ->
         ((q < inject_Z (debounce_ms (s e)))%Q ->
          hits (snd (run cv e [(t1, x1, y1); (t2, x2, y2)])) = [d1])
         /\ ((inject_Z (debounce_ms (s e)) <= q)%Q ->
             hits (snd (run cv e [(t1, x1, y1); (t2, x2, y2)])) = [d1; d2])).
Proof.
  split; [| split].
  - intros e t x y d q Hq Hv. rewrite (push_qualifying Hq).
    destruct (@float_lt_int_value _ (debounce_ms (s e)) q Hv) as [Hlt Hge].
    fold (debounced (s e) t (last_accept_ts e)) in Hlt, Hge.
    split; intros Hcmp.
    + rewrite (proj2 Hlt Hcmp). simpl. rewrite observe_last_accept_ts. auto.
    + rewrite (proj2 Hge Hcmp). rewrite accept_hits, accept_last_accept_ts. auto.
  - intros e t x y q Hh Hv.
    destruct (push_hit_after_debounce e t x y Hh) as (Hd & _).
    apply (@float_lt_int_value _ (debounce_ms (s e)) q Hv). exact Hd.
  - intros e t1 x1 y1 d1 t2 x2 y2 d2 q Hh1 Hq Hv.
    assert (Hne : hits (snd (push cv e t1 x1 y1)) <> [])
      by (rewrite Hh1; discriminate).
    destruct (push_hit_after_debounce e t1 x1 y1 Hne) as (_ & Hts & Hs).
    destruct (@float_lt_int_value _ (debounce_ms (s e)) q Hv) as [Hlt Hge].
    fold (debounced (s e) t2 t1) in Hlt, Hge.
    simpl. destruct (push cv e t1 x1 y1) as [e1 ev1] eqn:E1.
    simpl in Hh1, Hts, Hs, Hq.
    rewrite (push_qualifying Hq), Hts, Hs.
    split; intros Hcmp.
    + rewrite (proj2 Hlt Hcmp). simpl. rewrite app_nil_r. exact Hh1.
    + rewrite (proj2 Hge Hcmp).
      destruct (accept _ t2 d2) as [e2 ev2] eqn:E2. simpl.
      rewrite app_nil_r.
      assert (Hh2 : hits ev2 = [d2]).
      { change ev2 with (snd (e2, ev2)). rewrite <- E2. apply accept_hits. }
      rewrite hits_app, Hh1, Hh2. reflexivity.
Qed.

(** The estimate and the gate state do not depend on the macros. *)
Lemma observe_set_macros e ms t x y :
  observe cv (set_macros e ms) t x y = set_macros (observe cv e t x y) ms.
Proof.
  unfold observe. simpl.
  destruct (_compute_speed_and_dir _ _) as [[v d] p]. reflexivity.
Qed.

Lemma accept_filter e now d :
  snd (accept (set_macros e (filter nonempty_pattern (macros e))) now d)
  = snd (accept e now d)
  /\ seq (fst (accept (set_macros e (filter nonempty_pattern (macros e))) now d))
     = seq (fst (accept e now d)).
Proof.
  generalize (accept_scan e now d).
  generalize (accept_scan (set_macros e (filter nonempty_pattern (macros e))) now d).
  simpl seq. simpl macros.
  rewrite (scan_macros_filter (macros e) (snoc_not_nil (seq e) d)).
  destruct (scan_macros _ _); intros [-> ->] [-> ->]; auto.
Qed.

(** C10: a macro with an empty pattern never fires.  The comparison
    made for it, once the hit is appended, is between the whole
    sequence and the empty list and fails; so no push notifies a match
    for it, and striking the macros with an empty pattern from the list
    changes neither the notifications of a push nor the sequence it
    leaves: such a macro never clears the sequence. *)
Theorem empty_pattern_never_fires
  (e : GestureEngine) (t : float) (x y : Z) (m : Macro) :
  pattern m = [] ->
  (forall d,
      seq e ++ [d] <> []
      /\ Py.slice_from_neg (length (pattern m)) (seq e ++ [d]) = seq e ++ [d]
      /\ macro_matches (seq e ++ [d]) m = false)
  /\ ~ In (on_match m) (snd (push cv e t x y))
  /\ (let e0 := set_macros e (filter nonempty_pattern (macros e)) in
      snd (push cv e0 t x y) = snd (push cv e t x y)
      /\ seq (fst (push cv e0 t x y)) = seq (fst (push cv e t x y))).
Proof.
  intros Hp. split; [| split].
  - intros d. split; [apply snoc_not_nil | split].
    + rewrite Hp. reflexivity.
    + apply empty_pattern_no_match; [apply snoc_not_nil | exact Hp].
  - rewrite push_gate. cbv zeta.
    destruct (last_dir _) as [d|]; [| intros []].
    destruct (_ || _ || _ || _); [intros [] |].
    generalize (accept_scan (observe cv e t x y) t d).
    destruct (scan_macros _ _) as [m0|] eqn:Es; intros [-> _].
    + intros [E | [E | []]]; [discriminate |]. injection E as <-.
      apply scan_macros_some in Es. destruct Es as [_ Em].
      rewrite empty_pattern_no_match in Em;
        [discriminate | apply snoc_not_nil | exact Hp].
    + intros [E | []]. discriminate.
  - cbv zeta. rewrite !push_gate. cbv zeta.
    rewrite observe_set_macros. simpl.
    destruct (last_dir (observe cv e t x y)) as [d|]; [| auto].
    destruct (_ || _ || _ || _); [auto |].
    rewrite <- (observe_macros e t x y).
    apply accept_filter.
Qed.

End PushFacts.

(** The boundary of the debounce test on the scenario's canvas, with
    [debounce_ms = 50] and the last accepted time at its initial 0: the
    stroke that ends at 0.050 s is measured at exactly 50 ms and is a
    hit, the one that ends at 0.049 s is measured at 49 ms and is not. *)
Lemma debounce_separates_hits_witness :
  let cfg := scenario_settings 50 false in
  let e := fst (@run libm_run canvas420 (init cfg)
                  [(0.03%float, 210, 210); (0.04%float, 210, 60)]) in
  (exists q : Q,
      Py.float_value (elapsed_ms 0.05 (last_accept_ts e)) = Some q
      /\ (q == 50)%Q
      /\ hits (snd (@push libm_run canvas420 e 0.05 210 5)) = [U])
  /\ (exists q : Q,
         Py.float_value (elapsed_ms 0.049 (last_accept_ts e)) = Some q
         /\ (q == 49)%Q
         /\ hits (snd (@push libm_run canvas420 e 0.049 210 5)) = []).
Proof.
  cbv zeta.
  set (e := fst (@run libm_run canvas420 (init (scenario_settings 50 false))
                   [(0.03%float, 210, 210); (0.04%float, 210, 60)])).
  destruct (@debounce_separates_hits libm_run canvas420) as (Hone & _ & _).
  split.
  - exists (7036874417766400 # 140737488355328)%Q.
    split; [vm_compute; reflexivity |]. split; [vm_compute; reflexivity |].
    assert (Hq : @qualifies libm_run canvas420 e 0.05 210 5 U)
      by (vm_compute; repeat split).
    apply (Hone e 0.05%float 210 5 U _ Hq eq_refl).
    vm_compute. discriminate.
  - exists (6896136929411072 # 140737488355328)%Q.
    split; [vm_compute; reflexivity |]. split; [vm_compute; reflexivity |].
    assert (Hq : @qualifies libm_run canvas420 e 0.049 210 5 U)
      by (vm_compute; repeat split).
    apply (Hone e 0.049%float 210 5 U _ Hq eq_refl).
    vm_compute. reflexivity.
Defined.

(** The test compares with the integer itself: against a debounce time
    of 2^53 + 1 ms, which no float equals, a qualifying motion measured at
    2^53 ms is still too early. *)
Example debounce_beyond_float_precision :
  let cfg := {| speed_threshold_px_s := 1000;
                reset_radius_px := 50;
                debounce_ms := 2 ^ 53 + 1;
                require_reset_between_hits := false;
                angle_mode := "axis" |} in
  let r := @run libm_run canvas420 (init cfg)
             [(9007199254740.973%float, 210, 210);
              (9007199254740.982%float, 210, 60);
              (9007199254740.992%float, 210, 5)] in
  elapsed_ms 9007199254740.992 0 = 9007199254740992%float
  /\ Py.float_of_int (debounce_ms cfg) = 9007199254740992%float
  /\ debounced cfg 9007199254740.992 0 = true
  /\ last_dir (fst r) = Some U
  /\ below_threshold cfg (speed_median (fst r)) = false
  /\ hits (snd r) = [].
Proof. vm_compute. repeat split. Qed.

(* ------------------------------------------------------------------ *)
(** ** The end-to-end scenario *)

Section Stroke.
Context `{Libm}.

Variable cv : Canvas.

Lemma deque_append_short {A} (q : list A) (a : A) :
  (length q < 64)%nat -> Py.deque_append 64 q a = q ++ [a].
Proof.
  intros Hq. unfold Py.deque_append. rewrite length_app. simpl.
  replace (length q + 1 - 64)%nat with 0%nat by lia. reflexivity.
Qed.

(** The first two samples of a buffer can only be recorded. *)
Lemma push_warmup e t x y :
  (length (samples e) < 2)%nat ->
  push cv e t x y = (observe cv e t x y, []).
Proof.
  intros Hlen. rewrite push_gate. cbv zeta.
  assert (Hd : last_dir (observe cv e t x y) = None).
  { change (snd (speed_median (observe cv e t x y),
                 last_dir (observe cv e t x y)) = None).
    rewrite observe_estimate, estimate_undetermined; [reflexivity |].
    rewrite deque_append_short by lia. rewrite length_app. simpl. lia. }
  rewrite Hd. reflexivity.
Qed.

Lemma fresh_fields cfg e :
  fresh cfg e ->
  s e = cfg /\ samples e = [] /\ last_accept_ts e = 0%float
  /\ need_reset e = false.
Proof.
  intros [-> | (e0 & t0 & Hs & ->)]; simpl; auto.
Qed.

(** The state after the first two samples of a stroke. *)
Lemma stroke_warmup cfg e s1 s2 s3 :
  fresh cfg e ->
  exists e2,
    run cv e [s1; s2; s3]
    = (fst (push cv e2 (fst (fst s3)) (snd (fst s3)) (snd s3)),
       snd (push cv e2 (fst (fst s3)) (snd (fst s3)) (snd s3)))
    /\ s e2 = cfg /\ samples e2 = [s1; s2]
    /\ last_accept_ts e2 = 0%float /\ need_reset e2 = false.
Proof.
  intros Hf. destruct (fresh_fields Hf) as (Hs & Hb & Hts & Hn).
  destruct s1 as [[t1 x1] y1], s2 as [[t2 x2] y2], s3 as [[t3 x3] y3].
  set (e1 := observe cv e t1 x1 y1).
  assert (Hb1 : samples e1 = [(t1, x1, y1)]).
  { subst e1. rewrite observe_samples, Hb. reflexivity. }
  exists (observe cv e1 t2 x2 y2). split.
  - cbn [run fst snd]. rewrite push_warmup by (rewrite Hb; simpl; lia). fold e1.
    rewrite push_warmup by (rewrite Hb1; simpl; lia).
    destruct (push cv _ t3 x3 y3) as [e3 ev3]. simpl.
    rewrite app_nil_r. reflexivity.
  - rewrite observe_samples, Hb1. subst e1.
    rewrite !observe_settings, !observe_last_accept_ts.
    repeat split; auto.
    do 2 apply observe_keeps_no_reset. exact Hn.
Qed.

End Stroke.

(** C1: the end-to-end scenario as the program runs it.  From a new or
    reset engine on the 420 by 420 canvas, with threshold 1000, debounce
    50 ms and axis mode, the samples (0.000, 210, 210), (0.010, 210, 60),
    (0.020, 210, 5) give no hit notification.  No hit was accepted
    before, yet the debounce test measures the third sample against the
    initial [last_accept_ts] of 0 and drops it as 20 ms old.  The same
    three points at the times 1.000, 1.010 and 1.020 pass and give
    exactly one hit notification, with direction Up. *)
Theorem stroke_at_time_zero_is_debounced
  `{lm : Libm} (radius : Z) (interlock : bool) (e : GestureEngine) :
  fresh (scenario_settings radius interlock) e ->
  hits (snd (run canvas420 e (upward_stroke 0 0.01 0.02))) = []
  /\ (hypot 0 (-150) = 150%float -> hypot 0 (-55) = 55%float ->
      hits (snd (run canvas420 e (upward_stroke 1 1.01 1.02))) = [U]).
Proof.
  intros Hf. split.
  - destruct (stroke_warmup canvas420 (0%float, 210, 210) (0.01%float, 210, 60)
                (0.02%float, 210, 5) Hf) as (e2 & Hrun & Hs & Hb & Hts & Hn).
    match type of Hrun with ?l = _ => change (hits (snd l) = []) end.
    rewrite Hrun. simpl fst. simpl snd.
    rewrite (@push_rejected _ canvas420 e2 0.02%float 210 5); [reflexivity |].
    right; right; right; left. rewrite Hs, Hts. reflexivity.
  - intros H150 H55.
    destruct (stroke_warmup canvas420 (1%float, 210, 210) (1.01%float, 210, 60)
                (1.02%float, 210, 5) Hf) as (e2 & Hrun & Hs & Hb & Hts & Hn).
    match type of Hrun with ?l = _ => change (hits (snd l) = [U]) end.
    rewrite Hrun. simpl fst. simpl snd.
    assert (He : (speed_median (observe canvas420 e2 1.02 210 5),
                  last_dir (observe canvas420 e2 1.02 210 5))
                 = (10249.999999999991%float, Some U)).
    { rewrite observe_estimate, Hs, Hb.
      destruct lm as [hy at2 fm]. simpl in H150, H55.
      vm_compute. rewrite H150, H55. vm_compute. reflexivity. }
    injection He as Hv Hd.
    assert (Hq : qualifies canvas420 e2 1.02 210 5 U).
    { unfold qualifies. cbv zeta. rewrite Hd, Hv, Hs.
      rewrite (observe_keeps_no_reset canvas420 e2 1.02 210 5 Hn).
      unfold interlocked. rewrite andb_false_r. repeat split. }
    rewrite (push_qualifying Hq), Hs, Hts.
    change (debounced (scenario_settings radius interlock) 1.02 0) with false.
    cbv iota. apply accept_hits.
Qed.

Lemma stroke_at_time_zero_is_debounced_witness :
  fresh (scenario_settings 50 false) (init (scenario_settings 50 false))
  /\ hits (snd (@run libm_run canvas420 (init (scenario_settings 50 false))
                 (upward_stroke 0 0.01 0.02))) = []
  /\ hits (snd (@run libm_run canvas420 (init (scenario_settings 50 false))
                 (upward_stroke 1 1.01 1.02))) = [U].
Proof.
  assert (Hf : fresh (scenario_settings 50 false) (init (scenario_settings 50 false)))
    by (left; reflexivity).
  split; [exact Hf |].
  destruct (@stroke_at_time_zero_is_debounced libm_run 50 false _ Hf) as [H0 H1].
  split; [exact H0 |].
  apply H1; vm_compute; reflexivity.
Defined.

(** The end-to-end scenario on the new engine, run with the reference
    math library: the three samples give no notification at all.  The
    third one is fast enough and ends in the top band; the debounce test
    alone rejects it, 20 ms after the 0 that [last_accept_ts] starts
    with. *)
Lemma stroke_from_time_zero_gives_no_hit :
  let e := init (scenario_settings 50 false) in
  let r := @run libm_run canvas420 e (upward_stroke 0 0.01 0.02) in
  snd r = []
  /\ hits (snd r) <> [U]
  /\ last_dir (fst r) = Some U
  /\ speed_median (fst r) = 10250%float
  /\ elapsed_ms 0.02 (last_accept_ts e) = 20%float
  /\ debounced (s e) 0.02 (last_accept_ts e) = true.
Proof.
  vm_compute. repeat split. discriminate.
Qed.

(* ------------------------------------------------------------------ *)
(** ** The direction window *)

Section Window.
Context `{Libm}.

Lemma neg_index_app {A} (pre l : list A) (i : nat) (dflt : A) :
  (1 <= i <= length l)%nat ->
  Py.neg_index (pre ++ l) i dflt = Py.neg_index l i dflt.
Proof.
  intros Hi. unfold Py.neg_index. rewrite length_app, app_nth2 by lia.
  f_equal. lia.
Qed.

Lemma slice_from_neg_app {A} (pre l : list A) :
  (1 <= length l)%nat ->
  Py.slice_from_neg (length l) (pre ++ l) = l.
Proof.
  intros Hl. unfold Py.slice_from_neg.
  destruct (length l) eqn:E; [lia |]. rewrite <- E.
  apply skipn_app_suffix.
Qed.

Lemma slice_last_six {A} (pre : list A) (a b c d e f : A) :
  Py.slice_from_neg 6 (pre ++ [a; b; c; d; e; f]) = [a; b; c; d; e; f].
Proof.
  apply (@slice_from_neg_app A pre [a; b; c; d; e; f]). simpl. lia.
Qed.

(** Only the last six samples of the buffer reach the estimator. *)
Lemma pairs_of_last_six (pre : list Sample) (a b c d e f : Sample) :
  let six := [a; b; c; d; e; f] in
  map (pair_at (pre ++ six)) (pair_range (pre ++ six))
  = map (pair_at six) (pair_range six).
Proof.
  intros six. unfold pair_range. rewrite length_app.
  replace (Nat.min 6 (length pre + length six)) with 6%nat
    by (subst six; cbn [length]; lia).
  cbn [length six Nat.min Nat.sub List.seq map].
  unfold pair_at.
  rewrite !(neg_index_app pre six) by (subst six; cbn [length Nat.add]; lia).
  reflexivity.
Qed.

(** The sums the estimator quantises are those of the three oldest
    pairs among the last six samples: the loop collects the pairs from
    the newest to the oldest, and the slice [[-3:]] keeps the end of
    that list. *)
Lemma window_sums_are_oldest3 (cfg : Settings) (buf : list Sample) :
  (3 <= length buf)%nat ->
  snd (_compute_speed_and_dir cfg buf) = oldest3_sums buf.
Proof.
  intros Hlen. unfold _compute_speed_and_dir.
  destruct (length buf <? 3)%nat eqn:E; [apply Nat.ltb_lt in E; lia |].
  clear E. cbn [snd].
  rewrite <- (rev_involutive buf) in Hlen |- *.
  destruct (rev buf) as [|[[ta xa] ya] [|[[tb xb] yb] [|[[tc xc] yc]
    [|[[td xd] yd] [|[[te xe] ye] [|[[tf xf] yf] r]]]]]];
    try (simpl in Hlen; lia); clear Hlen.
  - unfold oldest3_sums. cbn. f_equal; lia.
  - unfold oldest3_sums. cbn. f_equal; lia.
  - unfold oldest3_sums. cbn. f_equal; lia.
  - change (rev ((ta, xa, ya) :: (tb, xb, yb) :: (tc, xc, yc)
                   :: (td, xd, yd) :: (te, xe, ye) :: (tf, xf, yf) :: r))
      with (rev (((ta, xa, ya) :: (tb, xb, yb) :: (tc, xc, yc)
                   :: (td, xd, yd) :: (te, xe, ye) :: [(tf, xf, yf)]) ++ r)).
    rewrite rev_app_distr. cbn [rev app].
    unfold oldest3_sums.
    rewrite (pairs_of_last_six (rev r) (tf, xf, yf) (te, xe, ye) (td, xd, yd)
               (tc, xc, yc) (tb, xb, yb) (ta, xa, ya)).
    rewrite slice_last_six.
    cbn. f_equal; lia.
Qed.

(** C2, evaluated on the program: on six samples that go three steps to the
    right and then two steps up, the estimator answers Right, from the
    sums (90, 0) of the three oldest pairs; the three most recent pairs
    have the sums (30, -100), which quantise to Up. *)
Theorem direction_window_example :
  snd (fst (_compute_speed_and_dir default_settings right_then_up)) = Some R
  /\ snd (_compute_speed_and_dir default_settings right_then_up) = (90, 0)
  /\ oldest3_sums right_then_up = (90, 0)
  /\ newest3_sums right_then_up = (30, -100)
  /\ quantize (angle_mode default_settings) 30 (-100) = U.
Proof.
  assert (Hs : snd (_compute_speed_and_dir default_settings right_then_up)
               = (90, 0)).
  { rewrite window_sums_are_oldest3 by (simpl; lia). reflexivity. }
  split; [| repeat split; auto].
  rewrite (@estimate_determined _ default_settings right_then_up)
    by (simpl; lia).
  rewrite Hs. reflexivity.
Qed.

End Window.

(* ------------------------------------------------------------------ *)
(** ** The properties at work on concrete runs *)

Lemma rejected_sample_changes_nothing_witness :
  let e2 := fst (@run libm_run canvas420 (init default_settings)
                   [(0%float, 210, 210); (0.01%float, 210, 60)]) in
  debounced (s e2) 0.02 (last_accept_ts e2) = true
  /\ last_accept_ts (fst (@push libm_run canvas420 e2 0.02 210 5))
     = last_accept_ts e2
  /\ seq (fst (@push libm_run canvas420 e2 0.02 210 5)) = seq e2
  /\ snd (@push libm_run canvas420 e2 0.02 210 5) = [].
Proof.
  intros e2. split; [vm_compute; reflexivity |].
  apply (@rejected_sample_changes_nothing libm_run canvas420 e2 0.02%float 210 5).
  right; right; right; left. vm_compute. reflexivity.
Defined.

Lemma axis_tie_is_vertical_witness :
  let buf := [(1%float, 0, 0); (1.01%float, 10, 10); (1.02%float, 20, 20)] in
  snd (@_compute_speed_and_dir libm_run default_settings buf) = (20, 20)
  /\ snd (fst (@_compute_speed_and_dir libm_run default_settings buf)) = Some D.
Proof.
  intros buf. split; [vm_compute; reflexivity |].
  destruct (@axis_tie_is_vertical libm_run default_settings buf) as [Hd _].
  - reflexivity.
  - simpl. lia.
  - vm_compute. reflexivity.
  - exact Hd.
Defined.

(** The settings of the angle mode: any mode other than "axis". *)
Lemma angle_mode_sectors_witness :
  let cfg := {| speed_threshold_px_s := 1000; reset_radius_px := 50;
                debounce_ms := 50; require_reset_between_hits := false;
                angle_mode := "angle" |} in
  let buf := [(1%float, 0, 100); (1.01%float, 10, 90); (1.02%float, 20, 80)] in
  @angle_deg libm_run 20 (-20) = 45%float
  /\ snd (fst (@_compute_speed_and_dir libm_run cfg buf)) = Some R.
Proof.
  intros cfg buf. split; [vm_compute; reflexivity |].
  destruct (@angle_mode_sectors libm_run cfg buf) as (_ & _ & _ & _ & H45 & _).
  - discriminate.
  - simpl. lia.
  - apply H45. vm_compute. reflexivity.
Defined.

Lemma empty_pattern_never_fires_witness :
  let m0 := {| pattern := []; key := "x"; name := "empty" |} in
  let e := set_macros (init (scenario_settings 50 false)) [m0; macro_B] in
  let e2 := fst (@run libm_run canvas420 e
                   [(1%float, 210, 210); (1.01%float, 210, 60)]) in
  snd (@push libm_run canvas420 e2 1.02 210 5) = [on_hit U; on_match macro_B]
  /\ ~ In (on_match m0) (snd (@push libm_run canvas420 e2 1.02 210 5)).
Proof.
  intros m0 e e2. split; [vm_compute; reflexivity |].
  apply (@empty_pattern_never_fires libm_run canvas420 e2 1.02%float 210 5 m0).
  reflexivity.
Defined.

(** The specification's example of matching fails.  Fed as
    two accepted hits, Up and Up notify macro B twice and macro A never;
    and so do the two Up hits that [push] accepts for a stroke into the
    top band and the cursor still there 80 ms later. *)
Lemma up_up_fires_B_not_A :
  let e := set_macros (init default_settings) [macro_A; macro_B] in
  let fed := snd (feed e [(1%float, U); (2%float, U)]) in
  let pushed :=
    snd (@run libm_run canvas420 e
           [(1%float, 210, 210); (1.01%float, 210, 60); (1.02%float, 210, 5);
            (1.1%float, 210, 5)]) in
  fed = [on_hit U; on_match macro_B; on_hit U; on_match macro_B]
  /\ pushed = fed
  /\ matches fed <> [macro_A]
  /\ ~ In (on_match macro_A) fed.
Proof.
  intros e fed pushed. split; [reflexivity | split; [| split]].
  - vm_compute. reflexivity.
  - discriminate.
  - simpl. intros [E | [E | [E | [E | []]]]]; discriminate.
Qed.

(** Debounce on a concrete run: after the hit at 1.02 s, the same cursor
    in the band 30 ms later gives no second hit, and 80 ms later it
    does. *)
Example debounce_two_motions :
  let e := init default_settings in
  hits (snd (@run libm_run canvas420 e
               [(1%float, 210, 210); (1.01%float, 210, 60);
                (1.02%float, 210, 5); (1.05%float, 210, 5)])) = [U]
  /\ hits (snd (@run libm_run canvas420 e
                  [(1%float, 210, 210); (1.01%float, 210, 60);
                   (1.02%float, 210, 5); (1.1%float, 210, 5)])) = [U; U].
Proof. split; vm_compute; reflexivity. Qed.


(* ================================================================== *)
(** * Further properties of the engine *)

Section EngineFacts.
Context `{Libm}.

Variable cv : Canvas.

Lemma accept_fields (e : GestureEngine) (now : float) (d : Dir) :
  samples (fst (accept e now d)) = samples e
  /\ macros (fst (accept e now d)) = macros e
  /\ inside_reset (fst (accept e now d)) = inside_reset e
  /\ last_above_threshold_ts (fst (accept e now d)) = last_above_threshold_ts e
  /\ last_sample_ts (fst (accept e now d)) = last_sample_ts e
  /\ need_reset (fst (accept e now d))
     = (if require_reset_between_hits (s e) then true else need_reset e).
Proof.
  unfold accept.
  destruct (match macros e with [] => None | _ => _ end); repeat split.
Qed.

(** What a push does to the fields that the gate does not decide. *)
Lemma push_fields (e : GestureEngine) (t : float) (x y : Z) :
  s (fst (push cv e t x y)) = s e
  /\ macros (fst (push cv e t x y)) = macros e
  /\ samples (fst (push cv e t x y)) = Py.deque_append 64 (samples e) (t, x, y)
  /\ inside_reset (fst (push cv e t x y)) = _inside_reset_circle cv (s e) x y.
Proof.
  rewrite push_gate. cbv zeta.
  assert (Hins : inside_reset (observe cv e t x y)
                 = _inside_reset_circle cv (s e) x y).
  { unfold observe. destruct (_compute_speed_and_dir _ _) as [[v d] p].
    reflexivity. }
  destruct (last_dir (observe cv e t x y)) as [d|].
  - destruct (_ || _ || _ || _).
    + simpl. rewrite observe_settings, observe_macros, observe_samples. auto.
    + destruct (accept_fields (observe cv e t x y) t d)
        as (-> & -> & -> & _).
      rewrite accept_settings, observe_settings, observe_macros,
        observe_samples. auto.
  - simpl. rewrite observe_settings, observe_macros, observe_samples. auto.
Qed.

Lemma run_cons (e : GestureEngine) (t : float) (x y : Z) (inp : list Sample) :
  run cv e ((t, x, y) :: inp)
  = (fst (run cv (fst (push cv e t x y)) inp),
     snd (push cv e t x y) ++ snd (run cv (fst (push cv e t x y)) inp)).
Proof.
  cbn [run]. destruct (push cv e t x y) as [e1 ev1]. cbn [fst snd].
  destruct (run cv e1 inp) as [e2 ev2]. reflexivity.
Qed.

Lemma sliding_window_step {A} (q : list A) (a : A) (inp : list A) :
  (length q <= 64)%nat ->
  skipn (length (Py.deque_append 64 q a ++ inp) - 64)
    (Py.deque_append 64 q a ++ inp)
  = skipn (length (q ++ a :: inp) - 64) (q ++ a :: inp).
Proof.
  intros Hlen.
  destruct (Nat.eq_dec (length q) 64) as [E | NE].
  - destruct q as [|h q]; [discriminate E |]. simpl in E.
    assert (Hq : Py.deque_append 64 (h :: q) a = q ++ [a]).
    { unfold Py.deque_append. cbn [app]. cbn [length]. rewrite length_app.
      cbn [length]. replace (S (length q + 1) - 64)%nat with 1%nat by lia.
      reflexivity. }
    rewrite Hq, <- app_assoc. cbn [app].
    rewrite !length_app. cbn [length]. rewrite length_app. cbn [length].
    replace (S (length q + S (length inp)) - 64)%nat
      with (S (length inp)) by lia.
    replace (length q + S (length inp) - 64)%nat with (length inp) by lia.
    reflexivity.
  - rewrite deque_append_short by lia.
    rewrite <- app_assoc. reflexivity.
Qed.

(** X1: the buffer is a sliding window of 64 samples.  After any run of
    pushes it holds, oldest first, the last 64 of the samples it held
    before followed by the samples pushed (all of them while there are
    no more than 64); the settings and the macro list are untouched. *)
Theorem run_buffer_is_last_64 (e : GestureEngine) (inp : list Sample) :
  (length (samples e) <= 64)%nat ->
  let e' := fst (run cv e inp) in
  samples e' = skipn (length (samples e ++ inp) - 64) (samples e ++ inp)
  /\ (length (samples e') <= 64)%nat
  /\ s e' = s e
  /\ macros e' = macros e.
Proof.
  revert e. induction inp as [|[[t x] y] inp IH]; intros e Hlen; cbv zeta.
  - simpl. rewrite app_nil_r.
    replace (length (samples e) - 64)%nat with 0%nat by lia. auto.
  - rewrite run_cons. cbn [fst].
    destruct (push_fields e t x y) as (Hs & Hm & Hb & _).
    assert (Hlen1 : (length (samples (fst (push cv e t x y))) <= 64)%nat).
    { rewrite Hb. apply deque_append_length. exact Hlen. }
    destruct (IH _ Hlen1) as (IHb & IHl & IHs & IHm).
    rewrite IHb, IHs, IHm, Hs, Hm, Hb. repeat split; auto.
    + apply sliding_window_step. exact Hlen.
    + rewrite <- Hb, <- IHb. exact IHl.
Qed.

(** X2: a push notifies nothing, or one hit, or one hit followed by one
    match.  The hit carries the direction the estimator gave for the
    buffer with the new sample, and the macro of the match is one of the
    macros set. *)
Theorem push_notifies_at_most_hit_then_match
  (e : GestureEngine) (t : float) (x y : Z) :
  snd (push cv e t x y) = []
  \/ exists d,
       last_dir (fst (push cv e t x y)) = Some d
       /\ snd (fst (_compute_speed_and_dir (s e)
                      (Py.deque_append 64 (samples e) (t, x, y)))) = Some d
       /\ (snd (push cv e t x y) = [on_hit d]
           \/ exists m, In m (macros e)
                        /\ snd (push cv e t x y) = [on_hit d; on_match m]).
Proof.
  rewrite push_gate. cbv zeta.
  assert (Hest := observe_estimate cv e t x y).
  destruct (last_dir (observe cv e t x y)) as [d|] eqn:Ed; [| left; reflexivity].
  destruct (_ || _ || _ || _); [left; reflexivity |].
  right. exists d.
  assert (Hld : last_dir (fst (accept (observe cv e t x y) t d)) = Some d).
  { unfold accept.
    destruct (match macros _ with [] => None | _ => _ end); exact Ed. }
  split; [exact Hld | split].
  - rewrite <- Hest. reflexivity.
  - generalize (accept_scan (observe cv e t x y) t d).
    destruct (scan_macros _ _) as [m|] eqn:Es; intros [-> _].
    + right. exists m. split; [| reflexivity].
      apply scan_macros_some in Es. rewrite observe_macros in Es. tauto.
    + left. reflexivity.
Qed.

(** A hit is notified exactly when the motion qualifies and the debounce
    test lets it through. *)
Lemma push_hit_iff (e : GestureEngine) (t : float) (x y : Z) (d : Dir) :
  In (on_hit d) (snd (push cv e t x y))
  <-> qualifies cv e t x y d
      /\ debounced (s e) t (last_accept_ts e) = false.
Proof.
  split.
  - rewrite push_gate. cbv zeta. unfold qualifies. cbv zeta.
    destruct (last_dir (observe cv e t x y)) as [d0|]; [| intros []].
    destruct (below_threshold _ _); [intros [] |].
    destruct (_in_band cv x y d0) eqn:Eb; [| intros []].
    destruct (debounced _ _ _); [intros [] |].
    destruct (interlocked _ _); [intros [] |].
    simpl. intros Hin.
    assert (Hd : d0 = d).
    { generalize (accept_scan (observe cv e t x y) t d0).
      destruct (scan_macros _ _); intros [Hev _]; rewrite Hev in Hin;
        simpl in Hin; destruct Hin as [E | Hin];
        try (injection E as ->; reflexivity);
        [destruct Hin as [E | []]; discriminate | destruct Hin]. }
    subst d0. auto.
  - intros [Hq Hdeb]. rewrite (push_qualifying Hq), Hdeb.
    generalize (accept_scan (observe cv e t x y) t d).
    destruct (scan_macros _ _); intros [-> _]; left; reflexivity.
Qed.

(** The interlock in terms of the state before the push: with the
    interlock on, a pending reset holds the hit back unless this very
    sample enters the circle. *)
Lemma interlock_open_iff (e : GestureEngine) (t : float) (x y : Z) :
  interlocked (s e) (need_reset (observe cv e t x y)) = false
  <-> (require_reset_between_hits (s e) = true ->
       need_reset e = true ->
       (x - CX cv) ^ 2 + (y - CY cv) ^ 2 <= reset_radius_px (s e) ^ 2
       /\ inside_reset e = false).
Proof.
  unfold interlocked. rewrite observe_need_reset. unfold _inside_reset_circle.
  destruct (Z.leb_spec ((x - CX cv) ^ 2 + (y - CY cv) ^ 2)
              (reset_radius_px (s e) ^ 2)) as [Hin | Hout];
    destruct (inside_reset e), (require_reset_between_hits (s e)),
      (need_reset e); simpl; split; intros Hx; try reflexivity;
      try discriminate; try (intros; discriminate); try (intros; split; auto);
      try (destruct (Hx eq_refl eq_refl) as [Hle Hf];
           first [discriminate Hf | lia]).
Qed.

(** X3: the gate is exact.  A push of [(t, x, y)] notifies a hit of
    direction [d] if and only if the estimate over the buffer with the
    sample appended has direction [d] and a median speed not below the
    threshold; the point lies within 24 pixels of the edge of [d]; the
    measured time [(t - last_accept_ts) * 1000.0] is not below the integer
    [debounce_ms]; and, with the interlock on and a reset pending, this
    sample enters the reset circle. *)
Theorem hit_iff_gate_passed
  (e : GestureEngine) (t : float) (x y : Z) (d : Dir) :
  let est := fst (_compute_speed_and_dir (s e)
                    (Py.deque_append 64 (samples e) (t, x, y))) in
  In (on_hit d) (snd (push cv e t x y))
  <-> snd est = Some d
      /\ (fst est <? speed_threshold_px_s (s e))%float = false
      /\ match d with
         | U => y <= 24
         | D => H cv - 24 <= y
         | L => x <= 24
         | R => W cv - 24 <= x
         end
      /\ ~ exactly_below ((t - last_accept_ts e) * 1000)%float
           (debounce_ms (s e))
      /\ (require_reset_between_hits (s e) = true ->
          need_reset e = true ->
          (x - CX cv) ^ 2 + (y - CY cv) ^ 2 <= reset_radius_px (s e) ^ 2
          /\ inside_reset e = false).
Proof.
  cbv zeta. rewrite push_hit_iff. unfold qualifies. cbv zeta.
  rewrite interlock_open_iff.
  pose proof (observe_estimate cv e t x y) as Hest.
  destruct (_compute_speed_and_dir _ _) as [[v dr] p]. simpl in Hest.
  injection Hest as Hv Hd. rewrite Hv, Hd. cbn [fst snd].
  unfold below_threshold.
  assert (Hband : _in_band cv x y d = true
                  <-> match d with
                      | U => y <= 24
                      | D => H cv - 24 <= y
                      | L => x <= 24
                      | R => W cv - 24 <= x
                      end).
  { unfold _in_band, BAND_X, BAND_Y. destruct d; apply Z.leb_le. }
  assert (Hdeb : debounced (s e) t (last_accept_ts e) = false
                 <-> ~ exactly_below ((t - last_accept_ts e) * 1000)%float
                       (debounce_ms (s e))).
  { unfold debounced, elapsed_ms. rewrite <- float_lt_int_spec.
    symmetry. apply not_true_iff_false. }
  rewrite Hband, Hdeb. tauto.
Qed.

End EngineFacts.

(** The gate on the stroke at 1.00, 1.01, 1.02 s: every condition holds
    at the third sample, the measured 1020 ms being well past the 50 ms,
    so the sample is notified as a hit Up; and it is not one to the
    right. *)
Lemma hit_iff_gate_passed_witness :
  let e := fst (@run libm_run canvas420 (init default_settings)
                  [(1%float, 210, 210); (1.01%float, 210, 60)]) in
  In (on_hit U) (snd (@push libm_run canvas420 e 1.02 210 5))
  /\ ~ In (on_hit R) (snd (@push libm_run canvas420 e 1.02 210 5)).
Proof.
  cbv zeta.
  set (e := fst (@run libm_run canvas420 (init default_settings)
                   [(1%float, 210, 210); (1.01%float, 210, 60)])).
  split.
  - apply (@hit_iff_gate_passed libm_run canvas420 e 1.02%float 210 5 U).
    split; [vm_compute; reflexivity |].
    split; [vm_compute; reflexivity |].
    split; [lia |].
    split; [| intros Hr; vm_compute in Hr; discriminate Hr].
    rewrite <- float_lt_int_spec. vm_compute. discriminate.
  - intros Hin.
    apply (@hit_iff_gate_passed libm_run canvas420 e 1.02%float 210 5 R) in Hin.
    destruct Hin as (Hd & _). vm_compute in Hd. discriminate Hd.
Defined.

Lemma run_buffer_is_last_64_witness :
  samples (fst (@run libm_run canvas420 (init default_settings)
                  [(1%float, 1, 1); (2%float, 2, 2)]))
  = [(1%float, 1, 1); (2%float, 2, 2)].
Proof.
  apply (@run_buffer_is_last_64 libm_run canvas420 (init default_settings)
           [(1%float, 1, 1); (2%float, 2, 2)]).
  simpl. lia.
Defined.


(* ------------------------------------------------------------------ *)
(** ** The reset interlock, the running sequence and the warm-up *)

Section SequenceFacts.
Context `{Libm}.

Variable cv : Canvas.

Lemma observe_inside_reset (e : GestureEngine) (t : float) (x y : Z) :
  inside_reset (observe cv e t x y) = _inside_reset_circle cv (s e) x y.
Proof.
  unfold observe. destruct (_compute_speed_and_dir _ _) as [[v d] p].
  reflexivity.
Qed.

(** What a push does to the interlock flag. *)
Lemma push_need_reset (e : GestureEngine) (t : float) (x y : Z) :
  need_reset (fst (push cv e t x y))
  = if require_reset_between_hits (s e)
    then (match hits (snd (push cv e t x y)) with
          | [] => need_reset (observe cv e t x y)
          | _ :: _ => true
          end)
    else need_reset e.
Proof.
  rewrite push_gate. cbv zeta.
  assert (Hobs : require_reset_between_hits (s e) = false ->
                 need_reset (observe cv e t x y) = need_reset e).
  { intros Hr. rewrite observe_need_reset, Hr.
    destruct (_ && _); reflexivity. }
  destruct (last_dir (observe cv e t x y)) as [d|].
  - destruct (_ || _ || _ || _).
    + simpl. destruct (require_reset_between_hits (s e)); auto.
    + rewrite accept_hits.
      destruct (accept_fields (observe cv e t x y) t d)
        as (_ & _ & _ & _ & _ & ->).
      rewrite observe_settings.
      destruct (require_reset_between_hits (s e)); auto.
  - simpl. destruct (require_reset_between_hits (s e)); auto.
Qed.

(** X4: the reset interlock.  With [require_reset_between_hits] on:
    every accepted hit leaves a reset pending; while a reset is pending,
    a run in which the cursor never enters the reset circle from outside
    notifies nothing and leaves the reset pending; and a sample that
    enters the circle from outside clears the pending reset before the
    gate looks at it. *)
Theorem interlock_holds_until_circle_entered (e : GestureEngine) :
  require_reset_between_hits (s e) = true ->
  (forall t x y,
      hits (snd (push cv e t x y)) <> [] ->
      need_reset (fst (push cv e t x y)) = true)
  /\ (forall inp,
         need_reset e = true ->
         no_entry cv (s e) (inside_reset e) inp = true ->
         snd (run cv e inp) = []
         /\ need_reset (fst (run cv e inp)) = true)
  /\ (forall t x y,
         _inside_reset_circle cv (s e) x y = true ->
         inside_reset e = false ->
         need_reset (observe cv e t x y) = false
         /\ interlocked (s e) (need_reset (observe cv e t x y)) = false).
Proof.
  intros Hreq. split; [| split].
  - intros t x y Hh. rewrite push_need_reset, Hreq.
    destruct (hits _); [contradiction | reflexivity].
  - intros inp. revert e Hreq.
    induction inp as [|[[t x] y] inp IH]; intros e Hreq Hneed Hno.
    + simpl. auto.
    + cbn [no_entry] in Hno. apply andb_true_iff in Hno.
      destruct Hno as [Hent Hno]. apply negb_true_iff in Hent.
      assert (Hobs : need_reset (observe cv e t x y) = true).
      { rewrite observe_need_reset, Hent. exact Hneed. }
      assert (Hpush : push cv e t x y = (observe cv e t x y, [])).
      { apply push_rejected. right; right; right; right.
        unfold interlocked. rewrite Hreq, Hobs. reflexivity. }
      rewrite run_cons, Hpush. cbn [fst snd app].
      apply IH.
      * rewrite observe_settings. exact Hreq.
      * exact Hobs.
      * rewrite observe_settings, observe_inside_reset. exact Hno.
  - intros t x y Hin Hwas.
    assert (Hobs : need_reset (observe cv e t x y) = false).
    { rewrite observe_need_reset, Hin, Hwas, Hreq. reflexivity. }
    split; [exact Hobs |].
    unfold interlocked. rewrite Hobs. apply andb_false_r.
Qed.

(** What a push does to the running sequence. *)
Lemma push_seq (e : GestureEngine) (t : float) (x y : Z) :
  (snd (push cv e t x y) = [] /\ seq (fst (push cv e t x y)) = seq e)
  \/ (exists d, snd (push cv e t x y) = [on_hit d]
                /\ seq (fst (push cv e t x y)) = seq e ++ [d])
  \/ (exists d m, snd (push cv e t x y) = [on_hit d; on_match m]
                  /\ seq (fst (push cv e t x y)) = []).
Proof.
  rewrite push_gate. cbv zeta.
  destruct (last_dir (observe cv e t x y)) as [d|].
  - destruct (_ || _ || _ || _).
    + left. simpl. rewrite observe_seq. auto.
    + generalize (accept_scan (observe cv e t x y) t d).
      rewrite observe_seq.
      destruct (scan_macros _ _) as [m|]; intros [-> ->].
      * right; right. exists d, m. auto.
      * right; left. exists d. auto.
  - left. simpl. rewrite observe_seq. auto.
Qed.

Lemma push_no_macros_no_match (e : GestureEngine) (t : float) (x y : Z) :
  macros e = [] -> matches (snd (push cv e t x y)) = [].
Proof.
  intros Hms. rewrite push_gate. cbv zeta.
  destruct (last_dir (observe cv e t x y)) as [d|]; [| reflexivity].
  destruct (_ || _ || _ || _); [reflexivity |].
  unfold accept. rewrite observe_macros, Hms. reflexivity.
Qed.

Lemma matches_app (evs evs' : list Event) :
  matches (evs ++ evs') = matches evs ++ matches evs'.
Proof.
  induction evs as [|[d|m] evs IH]; simpl; [| | rewrite IH]; auto.
Qed.

(** X5: the running sequence is made of the hits notified.  After any
    run it is a suffix of the sequence before followed by the hits of the
    run; it is all of that when no match was notified, as is always the
    case with an empty macro list, so that it then grows by one symbol
    with every hit; and it is empty right after a match. *)
Theorem sequence_is_suffix_of_hits (e : GestureEngine) (inp : list Sample) :
  let e' := fst (run cv e inp) in
  let evs := snd (run cv e inp) in
  (exists front, seq e ++ hits evs = front ++ seq e')
  /\ (matches evs = [] -> seq e' = seq e ++ hits evs)
  /\ (macros e = [] -> matches evs = [])
  /\ (forall evs0 m, evs = evs0 ++ [on_match m] -> seq e' = []).
Proof.
  revert e. induction inp as [|[[t x] y] inp IH]; intros e; cbv zeta.
  - simpl. rewrite app_nil_r. repeat split; auto.
    + exists []. reflexivity.
    + intros evs0 m E. destruct evs0; discriminate.
  - rewrite run_cons. cbn [fst snd].
    destruct (IH (fst (push cv e t x y))) as (IHsuf & IHall & IHnone & IHlast).
    destruct (push_fields cv e t x y) as (_ & Hm & _).
    rewrite hits_app, matches_app.
    destruct (push_seq e t x y)
      as [[Hev Hseq] | [(d & Hev & Hseq) | (d & m & Hev & Hseq)]];
      rewrite Hev in *; rewrite Hseq in *; cbn [hits matches app] in *.
    + repeat split; auto.
      * intros Hms. apply IHnone. rewrite Hm. exact Hms.
    + repeat split.
      * destruct IHsuf as [front Hf]. exists front.
        rewrite <- Hf, <- app_assoc. reflexivity.
      * intros Hmt. rewrite (IHall Hmt), <- app_assoc. reflexivity.
      * intros Hms. apply IHnone. rewrite Hm. exact Hms.
      * intros evs0 m E. destruct evs0 as [|ev evs0]; [| injection E as _ E].
        -- destruct (snd (run cv _ inp)); discriminate.
        -- apply (IHlast evs0 m). exact E.
    + repeat split.
      * destruct IHsuf as [front Hf]. simpl in Hf.
        exists (seq e ++ d :: front). rewrite <- app_assoc. cbn [app].
        rewrite Hf. reflexivity.
      * discriminate.
      * intros Hms. exfalso.
        generalize (push_no_macros_no_match e t x y Hms).
        rewrite Hev. discriminate.
      * intros evs0 m1 E.
        destruct evs0 as [|ev [|ev' evs0]].
        -- discriminate.
        -- cbn [app] in E. injection E as _ E.
           destruct (snd (run cv _ inp)) eqn:Er; [| discriminate].
           apply IHall. reflexivity.
        -- cbn [app] in E. injection E as _ _ E.
           apply (IHlast evs0 m1). exact E.
Qed.

(** X6: the estimator needs three samples.  Whatever the samples, a run
    that leaves fewer than three samples in the buffer notifies nothing:
    no hit can come before the third sample after construction or
    [reset]. *)
Theorem no_notification_before_third_sample
  (e : GestureEngine) (inp : list Sample) :
  (length (samples e) + length inp < 3)%nat ->
  snd (run cv e inp) = []
  /\ samples (fst (run cv e inp)) = samples e ++ inp.
Proof.
  revert e. induction inp as [|[[t x] y] inp IH]; intros e Hlen.
  - simpl. rewrite app_nil_r. auto.
  - cbn [length] in Hlen.
    rewrite run_cons, push_warmup by lia. cbn [fst snd app].
    destruct (IH (observe cv e t x y)) as [-> ->].
    + rewrite observe_samples, deque_append_short by lia.
      rewrite length_app. simpl. lia.
    + rewrite observe_samples, deque_append_short by lia.
      rewrite <- app_assoc. auto.
Qed.

End SequenceFacts.

Lemma no_notification_before_third_sample_witness :
  snd (@run libm_run canvas420 (init default_settings)
         [(1%float, 210, 5); (1.001%float, 210, 0)]) = [].
Proof.
  apply (@no_notification_before_third_sample libm_run canvas420
           (init default_settings) [(1%float, 210, 5); (1.001%float, 210, 0)]).
  simpl. lia.
Defined.


(** After a stroke into the top band at 1.02 s, the cursor resting in
    the band is not notified again under the interlock. *)
Lemma interlock_holds_until_circle_entered_witness :
  let e := fst (@run libm_run canvas420 (init (scenario_settings 50 true))
                  (upward_stroke 1 1.01 1.02)) in
  need_reset e = true
  /\ snd (@run libm_run canvas420 e [(1.1%float, 210, 5); (1.2%float, 210, 5)])
     = [].
Proof.
  intros e.
  assert (Hreq : require_reset_between_hits (s e) = true)
    by (vm_compute; reflexivity).
  assert (Hneed : need_reset e = true) by (vm_compute; reflexivity).
  split; [exact Hneed |].
  destruct (@interlock_holds_until_circle_entered libm_run canvas420 e Hreq)
    as (_ & Hrun & _).
  apply Hrun; [exact Hneed | vm_compute; reflexivity].
Defined.


(* ------------------------------------------------------------------ *)
(** ** More on the estimator *)

Module FloatFacts.

(** Zero divided by a positive value, infinite or not, is zero. *)
Lemma zero_div_pos (d : float) :
  (0 <? d)%float = true -> (0 / d)%float = 0%float.
Proof.
  intros Hd. apply Prim2SF_inj. rewrite div_spec.
  rewrite ltb_spec in Hd. unfold SF64div.
  change (Prim2SF 0) with (S754_zero false) in *.
  destruct (Prim2SF d) as [[]|[]| |[] m e]; simpl in Hd; try discriminate;
    reflexivity.
Qed.

(** Among values that are numbers, "not less" is "greater or equal". *)
Lemma not_ltb_leb (x y : float) :
  (x =? x)%float = true -> (y =? y)%float = true ->
  (x <? y)%float = false -> (y <=? x)%float = true.
Proof.
  rewrite !eqb_spec, ltb_spec, leb_spec.
  unfold SFeqb, SFltb, SFleb.
  rewrite (FloatOrder.SFcompare_antisym (Prim2SF x) (Prim2SF y)).
  destruct (Prim2SF x) as [[]|[]| |[] ? ?], (Prim2SF y) as [[]|[]| |[] ? ?];
    simpl; try congruence; FloatOrder.cmp_cases.
Qed.

(** A value that is not a number compares false with everything. *)
Lemma nan_compares_false (x v : float) :
  (x =? x)%float = false ->
  (v <? x)%float = false /\ (x <=? v)%float = false.
Proof.
  rewrite eqb_spec, ltb_spec, leb_spec. unfold SFeqb, SFltb, SFleb.
  destruct (Prim2SF x) as [[]|[]| |[] ? ?], (Prim2SF v) as [[]|[]| |[] ? ?];
    simpl; try congruence; try (split; reflexivity);
    rewrite Z.compare_refl, Pos.compare_cont_refl; simpl; congruence.
Qed.

Lemma ltb_asym (x y : float) :
  (x <? y)%float = true -> (y <? x)%float = false.
Proof.
  intros Hlt. apply FloatOrder.leb_not_ltb, FloatOrder.ltb_leb. exact Hlt.
Qed.

End FloatFacts.

(** [sorted] rearranges its input. *)
Lemma insert_perm (x : float) (l : list float) :
  Permutation (x :: l) (Py.insert x l).
Proof.
  induction l as [|y l IH]; simpl; [reflexivity |].
  destruct (x <? y)%float; [reflexivity |].
  rewrite perm_swap. constructor. exact IH.
Qed.

Lemma sorted_perm (vals : list float) : Permutation vals (Py.sorted vals).
Proof.
  unfold Py.sorted.
  assert (Hgen : forall acc, Permutation (acc ++ vals)
                   (fold_left (fun a x => Py.insert x a) vals acc)).
  { induction vals as [|x vals IH]; intros acc; simpl.
    - rewrite app_nil_r. reflexivity.
    - rewrite <- IH. rewrite <- insert_perm.
      symmetry. apply Permutation_middle. }
  apply (Hgen []).
Qed.

(** "Not less" chains among values that are numbers. *)
Lemma SF_le_le_trans (a b c : spec_float) :
  SFleb a b = true -> SFleb b c = true -> SFleb a c = true.
Proof. unfold SFleb. FloatOrder.by_cases3 a b c. Qed.

Lemma not_ltb_trans (x y z : float) :
  (x =? x)%float = true -> (y =? y)%float = true -> (z =? z)%float = true ->
  (y <? x)%float = false -> (z <? y)%float = false -> (z <? x)%float = false.
Proof.
  intros Hx Hy Hz Hxy Hyz.
  apply FloatOrder.leb_not_ltb.
  pose proof (FloatFacts.not_ltb_leb Hy Hx Hxy) as H1.
  pose proof (FloatFacts.not_ltb_leb Hz Hy Hyz) as H2.
  rewrite leb_spec in *. exact (SF_le_le_trans _ _ _ H1 H2).
Qed.

Lemma ltb_irrefl (x : float) : (x <? x)%float = false.
Proof.
  destruct (x <? x)%float eqn:E; [| reflexivity].
  rewrite (FloatFacts.ltb_asym E) in E. discriminate.
Qed.

(** On a list without NaN the result of [sorted] is in order: no value
    is less than any value before it. *)
Lemma insert_in_order (x : float) (l : list float) :
  (x =? x)%float = true -> nan_free l ->
  StronglySorted (fun a b => (b <? a)%float = false) l ->
  StronglySorted (fun a b => (b <? a)%float = false) (Py.insert x l).
Proof.
  intros Hx. induction l as [|y l IH]; intros Hn Hs; simpl.
  - constructor; constructor.
  - inversion Hn as [|? ? Hy Hn']; subst.
    inversion Hs as [|? ? Hs' Hall]; subst.
    destruct (x <? y)%float eqn:E.
    + constructor; [exact Hs |].
      constructor; [apply FloatFacts.ltb_asym; exact E |].
      rewrite Forall_forall in Hall, Hn' |- *. intros z Hz.
      apply (@not_ltb_trans x y z Hx Hy (Hn' z Hz)).
      * apply FloatFacts.ltb_asym; exact E.
      * apply Hall; exact Hz.
    + constructor; [apply IH; assumption |].
      apply (Permutation_Forall (insert_perm x l)).
      constructor; assumption.
Qed.

Lemma insert_nan_free (x : float) (l : list float) :
  (x =? x)%float = true -> nan_free l -> nan_free (Py.insert x l).
Proof.
  intros Hx Hn. apply (Permutation_Forall (insert_perm x l)).
  constructor; assumption.
Qed.

Lemma sorted_in_order (vals : list float) :
  nan_free vals ->
  StronglySorted (fun a b => (b <? a)%float = false) (Py.sorted vals).
Proof.
  unfold Py.sorted.
  assert (Hgen : forall acc,
             nan_free vals -> nan_free acc ->
             StronglySorted (fun a b => (b <? a)%float = false) acc ->
             StronglySorted (fun a b => (b <? a)%float = false)
               (fold_left (fun a x => Py.insert x a) vals acc)).
  { induction vals as [|x vals IH]; intros acc Hv Hacc Hs; simpl; [exact Hs |].
    inversion Hv as [|? ? Hx Hv']; subst.
    apply IH; [exact Hv' | apply insert_nan_free; assumption |].
    apply insert_in_order; assumption. }
  intros Hv. apply Hgen; [exact Hv | constructor | constructor].
Qed.

(** The counts of smaller and of greater values do not depend on the
    order of the list. *)
Lemma count_perm (x : float) (l l' : list float) :
  Permutation l l' ->
  count_lt x l = count_lt x l' /\ count_gt x l = count_gt x l'.
Proof.
  unfold count_lt, count_gt.
  induction 1 as [| a l l' _ [IH1 IH2] | a b l | l l' l'' _ [IH1 IH2] _ [IH3 IH4]];
    simpl.
  - auto.
  - destruct (a <? x)%float, (x <? a)%float; simpl; auto.
  - destruct (a <? x)%float, (x <? a)%float, (b <? x)%float, (x <? b)%float;
      simpl; auto.
  - split; congruence.
Qed.

Lemma filter_none {A} (f : A -> bool) (l : list A) :
  Forall (fun a => f a = false) l -> filter f l = [].
Proof.
  induction 1 as [|a l Ha _ IH]; simpl; [reflexivity |].
  rewrite Ha. exact IH.
Qed.

(** In a list in order, the value at index [i] has at most [i] values
    below it and at most [length - 1 - i] above it. *)
Lemma in_order_counts (v : list float) (i : nat) :
  StronglySorted (fun a b => (b <? a)%float = false) v ->
  (i < length v)%nat ->
  (count_lt (nth i v 0%float) v <= i)%nat
  /\ (count_gt (nth i v 0%float) v <= length v - 1 - i)%nat.
Proof.
  unfold count_lt, count_gt.
  intros Hs. revert i. induction Hs as [|a v Hs IH Hall]; intros i Hi.
  - simpl in Hi. lia.
  - cbn [length] in *. destruct i as [|i]; cbn [nth filter].
    + rewrite ltb_irrefl. rewrite (filter_none _ Hall). cbn [length].
      split; [lia |].
      pose proof (filter_length_le (fun b => (a <? b)%float) v). lia.
    + assert (Hi' : (i < length v)%nat) by lia.
      destruct (IH i Hi') as [IH1 IH2].
      rewrite Forall_forall in Hall.
      rewrite (Hall (nth i v 0%float)) by (apply nth_In; exact Hi').
      destruct (a <? nth i v 0)%float; cbn [length]; lia.
Qed.

(** X7: on values that are numbers the median is the middle of the
    values.  For an odd number [n] of values it is one of them, with at
    most [n / 2] values below it and at most [n / 2] above it.  For an
    even number, not zero, it is half the sum of two of them, [a] and
    [b], which are the two middle values in order: [b] is not less than
    [a], at most [n / 2 - 1] values are below [a] and at most [n / 2]
    above it, at most [n / 2] are below [b] and at most [n / 2 - 1]
    above it.  For no value it is 0. *)
Theorem median_is_the_middle_value (vals : list float) :
  nan_free vals ->
  let n := length vals in
  (vals = [] -> _median vals = 0%float)
  /\ (Nat.odd n = true ->
      In (_median vals) vals
      /\ (count_lt (_median vals) vals <= n / 2)%nat
      /\ (count_gt (_median vals) vals <= n / 2)%nat)
  /\ (vals <> [] -> Nat.even n = true ->
      exists a b,
        In a vals /\ In b vals /\ (b <? a)%float = false
        /\ (count_lt a vals <= n / 2 - 1)%nat
        /\ (count_gt a vals <= n / 2)%nat
        /\ (count_lt b vals <= n / 2)%nat
        /\ (count_gt b vals <= n / 2 - 1)%nat
        /\ _median vals = (0.5 * (a + b))%float).
Proof.
  intros Hnan n.
  assert (Hperm := sorted_perm vals).
  assert (Hlen := Permutation_length Hperm). fold n in Hlen.
  assert (Hord := sorted_in_order Hnan).
  assert (Hmod : (n mod 2 = if Nat.odd n then 1 else 0)%nat).
  { rewrite <- Nat.bit0_mod, Nat.bit0_odd. destruct (Nat.odd _); reflexivity. }
  assert (Hhalf : (n = 2 * (n / 2) + n mod 2)%nat) by (apply Nat.div_mod_eq).
  assert (Hcnt : forall i, (i < n)%nat ->
            In (nth i (Py.sorted vals) 0%float) vals
            /\ (count_lt (nth i (Py.sorted vals) 0%float) vals <= i)%nat
            /\ (count_gt (nth i (Py.sorted vals) 0%float) vals <= n - 1 - i)%nat).
  { intros i Hi. split.
    - apply (Permutation_in _ (Permutation_sym Hperm)).
      apply nth_In. rewrite <- Hlen. exact Hi.
    - destruct (count_perm (nth i (Py.sorted vals) 0%float) Hperm) as [-> ->].
      rewrite Hlen. apply in_order_counts; [exact Hord |].
      rewrite <- Hlen. exact Hi. }
  split; [intros ->; reflexivity | split].
  - intros Hodd. rewrite Hodd in Hmod.
    assert (Hmed : _median vals = nth (n / 2) (Py.sorted vals) 0%float).
    { destruct vals as [|x vals]; [discriminate Hodd |].
      unfold _median. cbv zeta. rewrite <- Hlen, Hmod. reflexivity. }
    rewrite Hmed.
    destruct (Hcnt (n / 2)%nat) as (Hin & Hlt & Hgt); [lia |].
    repeat split; [exact Hin | exact Hlt | lia].
  - intros Hne Heven.
    assert (Hodd : Nat.odd n = false).
    { rewrite <- Nat.negb_even, Heven. reflexivity. }
    rewrite Hodd in Hmod.
    assert (Hpos : (0 < n)%nat).
    { subst n. destruct vals; [contradiction | simpl; lia]. }
    assert (Hmed : _median vals
                   = (0.5 * (nth (n / 2 - 1) (Py.sorted vals) 0
                             + nth (n / 2) (Py.sorted vals) 0))%float).
    { destruct vals as [|x vals]; [contradiction |].
      unfold _median. cbv zeta. rewrite <- Hlen, Hmod. reflexivity. }
    exists (nth (n / 2 - 1) (Py.sorted vals) 0%float),
           (nth (n / 2) (Py.sorted vals) 0%float).
    destruct (Hcnt (n / 2 - 1)%nat) as (Hina & Hlta & Hgta); [lia |].
    destruct (Hcnt (n / 2)%nat) as (Hinb & Hltb & Hgtb); [lia |].
    repeat split; try assumption; try lia.
    clear - Hord Hlen Hpos Hhalf Hmod.
    assert (Hadj : forall (v : list float) (i : nat),
               StronglySorted (fun a b => (b <? a)%float = false) v ->
               (S i < length v)%nat ->
               (nth (S i) v 0 <? nth i v 0)%float = false).
    { intros v i Hs. revert i.
      induction Hs as [|a v Hs IH Hall]; intros i Hi; [simpl in Hi; lia |].
      cbn [length] in Hi. destruct i as [|i].
      - cbn [nth]. rewrite Forall_forall in Hall. apply Hall.
        apply nth_In. lia.
      - cbn [nth]. apply IH. lia. }
    replace (n / 2)%nat with (S (n / 2 - 1)) at 1 by lia.
    apply Hadj; [exact Hord |]. rewrite <- Hlen. lia.
Qed.

Lemma median_is_the_middle_value_witness :
  (nan_free [3; 1; 2]%float
   /\ _median [3; 1; 2]%float = 2%float
   /\ (count_lt (_median [3; 1; 2]%float) [3; 1; 2]%float <= 1)%nat
   /\ (count_gt (_median [3; 1; 2]%float) [3; 1; 2]%float <= 1)%nat)
  /\ (nan_free [4; 1; 3; 2]%float
      /\ exists a b,
           In a [4; 1; 3; 2]%float /\ In b [4; 1; 3; 2]%float
           /\ (count_lt a [4; 1; 3; 2]%float <= 1)%nat
           /\ (count_gt b [4; 1; 3; 2]%float <= 1)%nat
           /\ _median [4; 1; 3; 2]%float = (0.5 * (a + b))%float).
Proof.
  assert (H3 : nan_free [3; 1; 2]%float) by (repeat constructor).
  assert (H4 : nan_free [4; 1; 3; 2]%float) by (repeat constructor).
  split.
  - split; [exact H3 | split; [reflexivity |]].
    destruct (@median_is_the_middle_value [3; 1; 2]%float H3)
      as (_ & Hodd & _).
    destruct (Hodd eq_refl) as (_ & Hlt & Hgt). split; assumption.
  - split; [exact H4 |].
    destruct (@median_is_the_middle_value [4; 1; 3; 2]%float H4)
      as (_ & _ & Heven).
    destruct (Heven ltac:(discriminate) eq_refl)
      as (a & b & Ha & Hb & _ & Hlta & _ & _ & Hgtb & Hmed).
    exists a, b. repeat split; assumption.
Defined.

Section WindowFacts.
Context `{Libm}.

(** X8: the direction looks at a net displacement, and with a full tail
    not at the newest samples.  With [k = min(6, len(samples))] samples
    in the tail, the sums that are quantised are the position of the
    fourth sample of the tail, [samples[-(k-3)]] (the third and newest,
    [samples[-1]], when there are only three), minus the position of its
    first, [samples[-k]].  From six buffered samples on they are
    [samples[-3]] minus [samples[-6]]: the two newest samples take no
    part in the direction. *)
Theorem direction_window_is_net_displacement
  (cfg : Settings) (buf : list Sample) :
  (3 <= length buf)%nat ->
  let k := Nat.min 6 (length buf) in
  let j := (k - Nat.min 3 (k - 1))%nat in
  let p1 := position (Py.neg_index buf j sample0) in
  let p0 := position (Py.neg_index buf k sample0) in
  snd (_compute_speed_and_dir cfg buf) = (fst p1 - fst p0, snd p1 - snd p0)
  /\ ((6 <= length buf)%nat -> j = 3%nat /\ k = 6%nat).
Proof.
  intros Hlen k j p1 p0. split; [| subst j k; lia].
  rewrite window_sums_are_oldest3 by exact Hlen.
  subst p1 p0 j k. unfold oldest3_sums.
  rewrite <- (rev_involutive buf) in Hlen |- *.
  destruct (rev buf) as [|[[ta xa] ya] [|[[tb xb] yb] [|[[tc xc] yc]
    [|[[td xd] yd] [|[[te xe] ye] [|[[tf xf] yf] r]]]]]];
    try (simpl in Hlen; lia); clear Hlen.
  - cbn. f_equal; lia.
  - cbn. f_equal; lia.
  - cbn. f_equal; lia.
  - change (rev ((ta, xa, ya) :: (tb, xb, yb) :: (tc, xc, yc)
                   :: (td, xd, yd) :: (te, xe, ye) :: (tf, xf, yf) :: r))
      with (rev (((ta, xa, ya) :: (tb, xb, yb) :: (tc, xc, yc)
                   :: (td, xd, yd) :: (te, xe, ye) :: [(tf, xf, yf)]) ++ r)).
    rewrite rev_app_distr. cbn [rev app].
    rewrite slice_last_six, length_app. cbn [length].
    replace (Nat.min 6 (length (rev r) + 6)) with 6%nat by lia.
    cbn [Nat.min Nat.sub].
    rewrite !neg_index_app by (cbn [length]; lia).
    cbn. f_equal; lia.
Qed.

End WindowFacts.

Lemma direction_window_is_net_displacement_witness :
  snd (@_compute_speed_and_dir libm_run default_settings right_then_up)
  = (190 - 100, 200 - 200).
Proof.
  apply (@direction_window_is_net_displacement libm_run default_settings
           right_then_up).
  simpl. lia.
Defined.

(* ------------------------------------------------------------------ *)
(** ** A cursor at rest, and the activity marker *)

Lemma neg_index_in_slice {A} (k i : nat) (l : list A) (d : A) :
  (1 <= i)%nat -> (i <= k)%nat -> (i <= length l)%nat ->
  In (Py.neg_index l i d) (Py.slice_from_neg k l).
Proof.
  intros Hi Hk Hl. unfold Py.neg_index, Py.slice_from_neg.
  destruct k as [|k]; [lia |].
  replace (length l - i)%nat
    with ((length l - S k) + (length l - i - (length l - S k)))%nat by lia.
  rewrite <- nth_skipn. apply nth_In. rewrite length_skipn. lia.
Qed.

(** The last six samples after an append are the last five before it
    and the new one. *)
Lemma slice_after_append {A} (q : list A) (a : A) :
  Py.slice_from_neg 6 (Py.deque_append 64 q a) = Py.slice_from_neg 5 q ++ [a].
Proof.
  unfold Py.slice_from_neg, Py.deque_append.
  rewrite skipn_skipn, length_skipn, length_app. cbn [length].
  destruct (Nat.le_gt_cases (length q) 5) as [Hle | Hgt].
  - replace (length q + 1 - (length q + 1 - 64) - 6 + (length q + 1 - 64))%nat
      with 0%nat by lia.
    replace (length q - 5)%nat with 0%nat by lia. reflexivity.
  - replace (length q + 1 - (length q + 1 - 64) - 6 + (length q + 1 - 64))%nat
      with (length q - 5)%nat by lia.
    rewrite skipn_app.
    replace (length q - 5 - length q)%nat with 0%nat by lia. reflexivity.
Qed.

Lemma nth_all_zero (l : list float) (i : nat) :
  Forall (eq 0%float) l -> nth i l 0%float = 0%float.
Proof.
  intros Hl. revert i. induction Hl as [|a l <- _ IH]; intros [|i]; simpl; auto.
Qed.

Lemma median_of_zeros (vals : list float) :
  Forall (eq 0%float) vals -> _median vals = 0%float.
Proof.
  intros Hz. destruct vals as [|x vals]; [reflexivity |].
  assert (Hs : Forall (eq 0%float) (Py.sorted (x :: vals))).
  { rewrite Forall_forall in *. intros v Hv. apply Hz.
    apply (Permutation_in _ (Permutation_sym (sorted_perm (x :: vals)))).
    exact Hv. }
  unfold _median. cbv zeta.
  destruct (negb _); rewrite !(nth_all_zero _ Hs); reflexivity.
Qed.

Lemma dt_is_positive (d : float) : (0 <? Py.max 1e-4 d)%float = true.
Proof.
  unfold Py.max. destruct (1e-4 <? d)%float eqn:E; [| reflexivity].
  apply (@FloatOrder.leb_ltb_trans 0 1e-4 d); [reflexivity | exact E].
Qed.

Section RestFacts.
Context `{Libm}.

Variable cv : Canvas.

Lemma pair_at_rest (buf : list Sample) (i : nat) (x y : Z) :
  hypot 0 0 = 0%float ->
  position (Py.neg_index buf (i + 1) sample0) = (x, y) ->
  position (Py.neg_index buf i sample0) = (x, y) ->
  pair_at buf i = (0%float, 0, 0).
Proof.
  intros Hh H0' H1. unfold pair_at.
  destruct (Py.neg_index buf (i + 1) sample0) as [[t0 x0] y0].
  destruct (Py.neg_index buf i sample0) as [[t1 x1] y1].
  unfold position in H0', H1. simpl in H0', H1.
  injection H0' as -> ->. injection H1 as -> ->.
  rewrite !Z.sub_diag.
  change (Py.float_of_int 0) with 0%float. rewrite Hh.
  rewrite FloatFacts.zero_div_pos by apply dt_is_positive. reflexivity.
Qed.

Lemma estimate_at_rest (cfg : Settings) (buf : list Sample) (x y : Z) :
  hypot 0 0 = 0%float ->
  Forall (fun smp => position smp = (x, y)) (Py.slice_from_neg 6 buf) ->
  fst (fst (_compute_speed_and_dir cfg buf)) = 0%float.
Proof.
  intros Hh Hrest. unfold _compute_speed_and_dir.
  destruct (length buf <? 3)%nat; [reflexivity |]. cbn [fst].
  apply median_of_zeros. rewrite map_map.
  rewrite Forall_forall. intros v Hv. apply in_map_iff in Hv.
  destruct Hv as (i & <- & Hi). unfold pair_range in Hi.
  apply in_seq in Hi. rewrite Forall_forall in Hrest.
  rewrite (@pair_at_rest buf i x y Hh); [reflexivity | |].
  - apply Hrest. apply neg_index_in_slice; lia.
  - apply Hrest. apply neg_index_in_slice; lia.
Qed.

(** X9: a cursor at rest is never a hit.  If the sample pushed and the
    five buffered before it (or all of them, if fewer) are at one point,
    the median speed is 0 and, the threshold being positive, nothing is
    notified; hypot(0, 0) is taken to be 0. *)
Theorem cursor_at_rest_is_no_hit (e : GestureEngine) (t : float) (x y : Z) :
  hypot 0 0 = 0%float ->
  (0 <? speed_threshold_px_s (s e))%float = true ->
  Forall (fun smp => position smp = (x, y)) (Py.slice_from_neg 5 (samples e)) ->
  speed_median (fst (push cv e t x y)) = 0%float
  /\ snd (push cv e t x y) = [].
Proof.
  intros Hh Hthr Hrest.
  assert (Hv : speed_median (observe cv e t x y) = 0%float).
  { change (fst (speed_median (observe cv e t x y),
                 last_dir (observe cv e t x y)) = 0%float).
    rewrite observe_estimate. apply (@estimate_at_rest _ _ x y Hh).
    rewrite slice_after_append. apply Forall_app. split; [exact Hrest |].
    constructor; [reflexivity | constructor]. }
  assert (Hpush : push cv e t x y = (observe cv e t x y, [])).
  { apply push_rejected. right; left. rewrite Hv. exact Hthr. }
  rewrite Hpush. auto.
Qed.

Lemma observe_last_above (e : GestureEngine) (t : float) (x y : Z) :
  last_above_threshold_ts (observe cv e t x y)
  = match last_dir (observe cv e t x y) with
    | Some _ => if above_threshold (s e) (speed_median (observe cv e t x y))
                then t else last_above_threshold_ts e
    | None => last_above_threshold_ts e
    end.
Proof.
  unfold observe. destruct (_compute_speed_and_dir _ _) as [[v d] p].
  reflexivity.
Qed.

Lemma hit_not_below_threshold (e : GestureEngine) (t : float) (x y : Z) :
  hits (snd (push cv e t x y)) <> [] ->
  exists d, last_dir (observe cv e t x y) = Some d
            /\ below_threshold (s e) (speed_median (observe cv e t x y)) = false.
Proof.
  rewrite push_gate. cbv zeta.
  destruct (last_dir (observe cv e t x y)) as [d|];
    [| intros Hh; now contradiction Hh].
  destruct (below_threshold _ _); [intros Hh; now contradiction Hh |].
  intros _. exists d. auto.
Qed.

(** X10: the activity marker.  A push moves [last_above_threshold_ts]
    to the time of the sample exactly when a direction is determined and
    the median speed is at least the threshold, whether a hit follows or
    not, and leaves it alone otherwise.  So every hit moves it, provided
    the threshold and the speed are numbers.  With a threshold that is
    NaN the speed test of the gate rejects nothing and the marker never
    moves. *)
Theorem activity_marker_follows_fast_samples
  (e : GestureEngine) (t : float) (x y : Z) :
  let e' := fst (push cv e t x y) in
  (last_above_threshold_ts e'
   = if match last_dir e' with Some _ => true | None => false end
        && above_threshold (s e) (speed_median e')
     then t else last_above_threshold_ts e)
  /\ (hits (snd (push cv e t x y)) <> [] ->
      (speed_threshold_px_s (s e) =? speed_threshold_px_s (s e))%float = true ->
      (speed_median e' =? speed_median e')%float = true ->
      last_above_threshold_ts e' = t)
  /\ ((speed_threshold_px_s (s e) =? speed_threshold_px_s (s e))%float = false ->
      below_threshold (s e) (speed_median e') = false
      /\ last_above_threshold_ts e' = last_above_threshold_ts e).
Proof.
  cbv zeta.
  assert (Hsame : last_above_threshold_ts (fst (push cv e t x y))
                  = last_above_threshold_ts (observe cv e t x y)
                  /\ last_dir (fst (push cv e t x y))
                     = last_dir (observe cv e t x y)
                  /\ speed_median (fst (push cv e t x y))
                     = speed_median (observe cv e t x y)).
  { rewrite push_gate. cbv zeta.
    destruct (last_dir (observe cv e t x y)) as [d|] eqn:Ed; [| auto].
    destruct (_ || _ || _ || _); [auto |].
    unfold accept.
    destruct (match macros _ with [] => None | _ => _ end); auto. }
  destruct Hsame as (Ha & Hd & Hv). rewrite Ha, Hd, Hv, observe_last_above.
  split; [| split].
  - destruct (last_dir (observe cv e t x y)); [| reflexivity].
    destruct (above_threshold _ _); reflexivity.
  - intros Hh Hthr Hnum.
    destruct (hit_not_below_threshold e t x y Hh) as (d & Hld & Hbelow).
    rewrite Hld. unfold above_threshold.
    rewrite (FloatFacts.not_ltb_leb Hnum Hthr Hbelow). reflexivity.
  - intros Hnan.
    destruct (FloatFacts.nan_compares_false
                (speed_median (observe cv e t x y)) Hnan) as [Hlt Hle].
    unfold below_threshold, above_threshold. rewrite Hlt, Hle.
    split; [reflexivity |].
    destruct (last_dir (observe cv e t x y)); reflexivity.
Qed.

End RestFacts.

Lemma cursor_at_rest_is_no_hit_witness :
  let e := fst (@run libm_run canvas420 (init default_settings)
                  [(1%float, 210, 5); (1.01%float, 210, 5)]) in
  snd (@push libm_run canvas420 e 1.02 210 5) = [].
Proof.
  intros e.
  apply (@cursor_at_rest_is_no_hit libm_run canvas420 e 1.02%float 210 5).
  - reflexivity.
  - reflexivity.
  - vm_compute. repeat constructor.
Defined.

Lemma activity_marker_follows_fast_samples_witness :
  let e := fst (@run libm_run canvas420 (init default_settings)
                  [(1%float, 210, 210); (1.01%float, 210, 60)]) in
  last_above_threshold_ts (fst (@push libm_run canvas420 e 1.02 210 5))
  = 1.02%float.
Proof.
  intros e.
  apply (@activity_marker_follows_fast_samples libm_run canvas420 e
           1.02%float 210 5).
  - vm_compute. discriminate.
  - reflexivity.
  - vm_compute. reflexivity.
Defined.

(* ================================================================== *)
(** * Properties of the application around the engine *)

(** ** The canvas, its bands and its reset circle *)

(** X11: the canvas the application sets up.  Whatever size is stored or
    entered, the canvas is at least 200 by 200, its centre is one of its
    points and lies in none of the four bands, and no point lies in two
    opposite bands. *)
Theorem app_canvas_keeps_bands_apart (width height : Z) :
  let cv := app_canvas width height in
  200 <= W cv /\ 200 <= H cv
  /\ in_canvas cv (CX cv) (CY cv)
  /\ (forall d, _in_band cv (CX cv) (CY cv) d = false)
  /\ (forall x y, _in_band cv x y U = true -> _in_band cv x y D = false)
  /\ (forall x y, _in_band cv x y L = true -> _in_band cv x y R = false).
Proof.
  unfold app_canvas, in_canvas. cbn [W H CX CY].
  set (w := Z.max 200 width). set (h := Z.max 200 height).
  assert (Hw : 200 <= w) by apply Z.le_max_l.
  assert (Hh : 200 <= h) by apply Z.le_max_l.
  clearbody w h.
  assert (Hcx : 100 <= w / 2 <= w - 100) by (Z.div_mod_to_equations; lia).
  assert (Hcy : 100 <= h / 2 <= h - 100) by (Z.div_mod_to_equations; lia).
  split; [exact Hw | split; [exact Hh | split; [lia | split; [| split]]]].
  - intros []; unfold _in_band, BAND_X, BAND_Y; cbn [W H];
      apply Z.leb_gt; lia.
  - intros x y. unfold _in_band, BAND_Y. cbn [H].
    rewrite Z.leb_le, Z.leb_gt. lia.
  - intros x y. unfold _in_band, BAND_X. cbn [W].
    rewrite Z.leb_le, Z.leb_gt. lia.
Qed.

(** X13: the reset circle under any radius.  The test depends on the
    size of the radius only, so a negative radius acts as its absolute
    value; a point inside stays inside under any radius at least as
    large; and the centre is inside under every radius. *)
Theorem reset_circle_depends_on_radius_size
  (cv : Canvas) (cfg cfg' : Settings) (x y : Z) :
  Z.abs (reset_radius_px cfg) <= Z.abs (reset_radius_px cfg') ->
  (_inside_reset_circle cv cfg x y = true ->
   _inside_reset_circle cv cfg' x y = true)
  /\ (Z.abs (reset_radius_px cfg) = Z.abs (reset_radius_px cfg') ->
      _inside_reset_circle cv cfg' x y = _inside_reset_circle cv cfg x y)
  /\ _inside_reset_circle cv cfg (CX cv) (CY cv) = true.
Proof.
  intros Hr. unfold _inside_reset_circle.
  assert (Hsq : forall r, r ^ 2 = Z.abs r * Z.abs r).
  { intros r. rewrite Z.pow_2_r. symmetry. apply Z.abs_square. }
  rewrite !(Hsq (reset_radius_px _)).
  repeat split.
  - rewrite !Z.leb_le. intros Hin. nia.
  - intros ->. reflexivity.
  - rewrite !Z.sub_diag, Z.leb_le. simpl. nia.
Qed.

Lemma reset_circle_depends_on_radius_size_witness :
  _inside_reset_circle canvas420 (scenario_settings (-50) false) 240 250
  = _inside_reset_circle canvas420 (scenario_settings 50 false) 240 250.
Proof.
  destruct (@reset_circle_depends_on_radius_size canvas420
              (scenario_settings 50 false) (scenario_settings (-50) false)
              240 250) as (_ & Heq & _).
  - simpl. lia.
  - apply Heq. reflexivity.
Defined.

(* ------------------------------------------------------------------ *)
(** ** Recentering and the pump loop *)

Lemma Forall_skipn_keep {A} (P : A -> Prop) (n : nat) (l : list A) :
  Forall P l -> Forall P (skipn n l).
Proof.
  intros Hl. rewrite <- (firstn_skipn n l) in Hl.
  apply Forall_app in Hl. tauto.
Qed.

Section AppFacts.
Context `{Libm}.

(** The two pushes of a recentering are only recorded. *)
Lemma recenter_unfold (cv : Canvas) (a : App) (t_reset t0 : float) :
  let cx := W cv / 2 in
  let cy := H cv / 2 in
  let cv' := {| W := W cv; H := H cv; CX := cx; CY := cy |} in
  _recenter_virtual_cursor cv a t_reset t0
  = (cv',
     {| engine := observe cv' (observe cv' (reset (engine a) t_reset) t0 cx cy)
                    (t0 + 0.01)%float cx cy;
        vx := cx;
        vy := cy;
        last_global_xy := last_global_xy a;
        trace_maxlen := trace_maxlen a;
        trace := Py.deque_append (trace_maxlen a) [] (cx, cy) |},
     []).
Proof.
  cbv zeta. unfold _recenter_virtual_cursor. cbv zeta.
  set (cv' := {| W := W cv; H := H cv; CX := W cv / 2; CY := H cv / 2 |}).
  set (e0 := reset (engine a) t_reset).
  rewrite (@push_warmup _ cv' e0) by (simpl; lia).
  set (e1 := observe cv' e0 t0 (W cv / 2) (H cv / 2)).
  assert (Hb1 : samples e1 = [(t0, W cv / 2, H cv / 2)])
    by (subst e1; rewrite observe_samples; reflexivity).
  rewrite (@push_warmup _ cv' e1) by (rewrite Hb1; simpl; lia).
  reflexivity.
Qed.

(** X14: recentering.  Whatever the state before and the clock,
    [_recenter_virtual_cursor] notifies nothing and leaves the cursor at
    the centre [(W // 2, H // 2)], the buffer with exactly the two centre
    samples it pushes, the running sequence empty, no reset pending, the
    cursor counted as inside the reset circle (under any radius) and the
    debounce origin at 0; settings and macros are kept. *)
Theorem recenter_leaves_two_centre_samples
  (cv : Canvas) (a : App) (t_reset t0 : float) :
  let r := _recenter_virtual_cursor cv a t_reset t0 in
  let cv' := fst (fst r) in
  let a' := snd (fst r) in
  snd r = []
  /\ W cv' = W cv /\ H cv' = H cv
  /\ CX cv' = W cv / 2 /\ CY cv' = H cv / 2
  /\ vx a' = CX cv' /\ vy a' = CY cv'
  /\ samples (engine a')
     = [(t0, CX cv', CY cv'); ((t0 + 0.01)%float, CX cv', CY cv')]
  /\ seq (engine a') = []
  /\ need_reset (engine a') = false
  /\ inside_reset (engine a') = true
  /\ last_accept_ts (engine a') = 0%float
  /\ s (engine a') = s (engine a)
  /\ macros (engine a') = macros (engine a).
Proof.
  cbv zeta. rewrite recenter_unfold. cbn [fst snd engine vx vy CX CY W H].
  set (cv' := {| W := W cv; H := H cv; CX := W cv / 2; CY := H cv / 2 |}).
  set (e0 := reset (engine a) t_reset).
  set (e1 := observe cv' e0 t0 (W cv / 2) (H cv / 2)).
  assert (Hb1 : samples e1 = [(t0, W cv / 2, H cv / 2)])
    by (subst e1; rewrite observe_samples; reflexivity).
  rewrite observe_samples, Hb1, observe_inside_reset.
  subst e1. rewrite !observe_seq, !observe_last_accept_ts, !observe_settings,
    !observe_macros.
  repeat split; auto.
  - do 2 apply observe_keeps_no_reset. reflexivity.
  - unfold _inside_reset_circle. subst cv'. cbn [CX CY].
    rewrite !Z.sub_diag, Z.leb_le. simpl. nia.
Qed.

Lemma push_keeps_buffer_in_canvas
  (cv : Canvas) (e : GestureEngine) (t : float) (x y : Z) :
  in_canvas cv x y ->
  Forall (in_canvas_sample cv) (samples e) ->
  Forall (in_canvas_sample cv) (samples (fst (push cv e t x y))).
Proof.
  intros Hp Hb. destruct (push_fields cv e t x y) as (_ & _ & -> & _).
  unfold Py.deque_append. apply Forall_skipn_keep, Forall_app.
  split; [exact Hb |]. constructor; [exact Hp | constructor].
Qed.

Lemma pump_item_in_canvas (cv : Canvas) (a : App) (item : Sample) :
  1 <= W cv -> 1 <= H cv ->
  app_in_canvas cv a -> app_in_canvas cv (fst (pump_item cv a item)).
Proof.
  intros HW HH [Hc Hb]. destruct item as [[t x] y]. unfold pump_item.
  destruct (last_global_xy a) as [[lx ly]|]; [| split; assumption].
  set (vx' := Z.max 0 (Z.min (W cv - 1) (vx a + (x - lx)))).
  set (vy' := Z.max 0 (Z.min (H cv - 1) (vy a + (y - ly)))).
  assert (Hp : in_canvas cv vx' vy') by (unfold in_canvas; subst vx' vy'; lia).
  generalize (@push_keeps_buffer_in_canvas cv (engine a) t vx' vy' Hp Hb).
  destruct (push cv (engine a) t vx' vy') as [e' evs]. simpl.
  intros Hb'. split; assumption.
Qed.

Lemma pump_drain_in_canvas (cv : Canvas) (a : App) (queue : list Sample) :
  1 <= W cv -> 1 <= H cv ->
  app_in_canvas cv a -> app_in_canvas cv (fst (pump_drain cv a queue)).
Proof.
  intros HW HH. revert a. induction queue as [|item queue IH]; intros a Ha.
  - exact Ha.
  - cbn [pump_drain].
    generalize (pump_item_in_canvas item HW HH Ha).
    destruct (pump_item cv a item) as [a1 ev1]. cbn [fst]. intros Ha1.
    specialize (IH a1 Ha1).
    destruct (pump_drain cv a1 queue) as [a2 ev2]. exact IH.
Qed.

(** X15: the pump keeps the engine's input in the canvas.  On a canvas
    of width and height at least 1, if the cursor and the buffered
    samples are points of the canvas before a tick of [_pump], they are
    after it, whatever the pointer reported and whether or not the tick
    recentred the cursor; the size of the canvas is not changed, and the
    tick notifies what its pushes of queue entries notify, nothing more. *)
Theorem pump_keeps_cursor_in_canvas
  (cv : Canvas) (a : App) (active : bool) (queue : list Sample)
  (now t_reset t0 : float) (inactivity_reset_ms : Z) :
  1 <= W cv -> 1 <= H cv ->
  app_in_canvas cv a ->
  let r := _pump cv a active queue now t_reset t0 inactivity_reset_ms in
  app_in_canvas (fst (fst r)) (snd (fst r))
  /\ W (fst (fst r)) = W cv /\ H (fst (fst r)) = H cv
  /\ snd r = (if active then snd (pump_drain cv a queue) else []).
Proof.
  intros HW HH Ha. cbv zeta. unfold _pump.
  assert (Ha1 : app_in_canvas cv
                  (fst (if active then pump_drain cv a queue else (a, [])))).
  { destruct active; [apply pump_drain_in_canvas; assumption | exact Ha]. }
  assert (Hev : snd (if active then pump_drain cv a queue else (a, []))
                = if active then snd (pump_drain cv a queue) else [])
    by (destruct active; reflexivity).
  destruct (if active then pump_drain cv a queue else (a, [])) as [a1 evs].
  cbn [fst snd] in Ha1, Hev. cbv zeta.
  destruct (Py.float_ge_int _ _); [| cbn [fst snd]; auto].
  destruct (_ || _); [| cbn [fst snd]; auto].
  rewrite recenter_unfold. cbv zeta. cbn [fst snd].
  rewrite app_nil_r.
  set (cv' := {| W := W cv; H := H cv; CX := W cv / 2; CY := H cv / 2 |}).
  assert (Hc : in_canvas cv' (W cv / 2) (H cv / 2)).
  { unfold in_canvas. subst cv'. cbn [W H].
    split; Z.div_mod_to_equations; lia. }
  split; [| auto]. split; [exact Hc |]. cbn [engine].
  rewrite observe_samples, observe_samples. simpl samples.
  repeat constructor; apply Hc.
Qed.

End AppFacts.

Lemma pump_keeps_cursor_in_canvas_witness :
  let a := {| engine := init default_settings; vx := 210; vy := 210;
              last_global_xy := Some (700, 400); trace_maxlen := 30;
              trace := [] |} in
  let r := @_pump libm_run canvas420 a true
             [(1%float, 700, -900); (1.01%float, 5000, -900)]
             1.02 1.02 1.02 150 in
  app_in_canvas (fst (fst r)) (snd (fst r)).
Proof.
  intros a r.
  apply (@pump_keeps_cursor_in_canvas libm_run canvas420 a true
           [(1%float, 700, -900); (1.01%float, 5000, -900)]
           1.02%float 1.02%float 1.02%float 150).
  - simpl. lia.
  - simpl. lia.
  - split; [unfold in_canvas; simpl; lia | constructor].
Defined.

(* ------------------------------------------------------------------ *)
(** ** Editing the macro list *)

Lemma scan_macros_app (sq : list Dir) (ms ms' : list Macro) :
  scan_macros sq (ms ++ ms')
  = match scan_macros sq ms with
    | Some m => Some m
    | None => scan_macros sq ms'
    end.
Proof.
  induction ms as [|m ms IH]; simpl; [reflexivity |].
  destruct (macro_matches sq m); [reflexivity | exact IH].
Qed.

Lemma accept_events (e : GestureEngine) (now : float) (d : Dir) :
  snd (accept e now d)
  = match scan_macros (seq e ++ [d]) (macros e) with
    | Some m => [on_hit d; on_match m]
    | None => [on_hit d]
    end.
Proof.
  generalize (accept_scan e now d).
  destruct (scan_macros _ _); intros [-> _]; reflexivity.
Qed.

Section MacroListFacts.
Context `{Libm}.

Variable cv : Canvas.

(** A macro put at the end of the list takes no match away. *)
Lemma push_with_macro_appended
  (e : GestureEngine) (t : float) (x y : Z) (m m0 : Macro) :
  In (on_match m0) (snd (push cv e t x y)) ->
  snd (push cv (set_macros e (macros e ++ [m])) t x y) = snd (push cv e t x y).
Proof.
  rewrite !push_gate. cbv zeta. rewrite observe_set_macros. simpl.
  destruct (last_dir (observe cv e t x y)) as [d|]; [| intros []].
  destruct (_ || _ || _ || _); [intros [] |].
  rewrite !accept_events. simpl. rewrite observe_macros, scan_macros_app.
  destruct (scan_macros _ (macros e)); [reflexivity |].
  intros [E | []]. discriminate.
Qed.

(** X16: adding a macro.  [_add_macro] accepts the entry exactly when
    the pattern text, in upper case, has a letter among U, R, D, L and
    the output text is not blank.  The macro added then has a pattern
    that is not empty, and it goes to the end of the list: it fires only
    where no macro already in the list does, so every push that notified
    a match before the addition notifies the same after it. *)
Theorem add_macro_appends_with_lowest_priority
  (upper strip : string -> string) (ms : list Macro)
  (build_seq build_key build_name : string) :
  let r := _add_macro upper strip ms build_seq build_key build_name in
  (r = invalid_pattern <-> pattern_of_text (upper build_seq) = [])
  /\ (r = invalid_output <->
      pattern_of_text (upper build_seq) <> [] /\ strip build_key = ""%string)
  /\ (forall ms', r = added ms' ->
      exists m,
        ms' = ms ++ [m]
        /\ pattern m = pattern_of_text (upper build_seq)
        /\ pattern m <> []
        /\ key m <> ""%string
        /\ (forall sq,
               scan_macros sq ms'
               = match scan_macros sq ms with
                 | Some m0 => Some m0
                 | None => if macro_matches sq m then Some m else None
                 end)
        /\ (forall e t x y m0,
               macros e = ms ->
               In (on_match m0) (snd (push cv e t x y)) ->
               snd (push cv (set_macros e ms') t x y)
               = snd (push cv e t x y))).
Proof.
  cbv zeta. unfold _add_macro.
  destruct (pattern_of_text (upper build_seq)) as [|d pat] eqn:Ep.
  - split; [tauto | split].
    + split; [discriminate | intros [Hne _]; contradiction].
    + discriminate.
  - destruct (String.eqb (strip build_key) "") eqn:Ek.
    + apply String.eqb_eq in Ek.
      split; [split; discriminate | split].
      * split; [intros _; split; [discriminate | exact Ek] | reflexivity].
      * discriminate.
    + apply String.eqb_neq in Ek.
      split; [split; discriminate | split].
      * split; [discriminate | intros [_ Hk]; contradiction].
      * intros ms' E. injection E as <-.
        eexists. split; [reflexivity |]. cbn [pattern key].
        split; [reflexivity | split; [discriminate | split; [exact Ek | split]]].
        -- intros sq. rewrite scan_macros_app. reflexivity.
        -- intros e t x y m0 <- Hin.
           apply (@push_with_macro_appended e t x y _ m0 Hin).
Qed.

End MacroListFacts.

Lemma add_macro_appends_with_lowest_priority_witness :
  exists m,
    _add_macro (fun u => u) (fun u => u) [macro_B] "UxD" "ctrl+c" "copy"
    = added ([macro_B] ++ [m])
    /\ pattern m = [U; D].
Proof.
  destruct (@add_macro_appends_with_lowest_priority libm_run canvas420
              (fun u => u) (fun u => u) [macro_B] "UxD" "ctrl+c" "copy")
    as (_ & _ & Hadd).
  destruct (Hadd _ eq_refl) as (m & Hms & Hp & _).
  exists m. split; [| exact Hp].
  cbv zeta in Hms. rewrite <- Hms. reflexivity.
Defined.

(** X17: deleting a macro.  [_del_selected_macro] takes one macro out of
    the list and keeps the others in their order; for an index past the
    end there is no list.  A sequence that the deleted macro did not
    match fires the same macro, or none, after the deletion as before. *)
Theorem delete_macro_keeps_other_matches
  (ms : list Macro) (idx : nat) :
  (_del_selected_macro ms idx = None <-> (length ms <= idx)%nat)
  /\ (forall ms' m,
         _del_selected_macro ms idx = Some ms' ->
         nth_error ms idx = Some m ->
         ms = firstn idx ms ++ m :: skipn (S idx) ms
         /\ ms' = firstn idx ms ++ skipn (S idx) ms
         /\ S (length ms') = length ms
         /\ (forall sq, macro_matches sq m = false ->
                        scan_macros sq ms' = scan_macros sq ms)).
Proof.
  unfold _del_selected_macro. split.
  - destruct (idx <? length ms)%nat eqn:E.
    + apply Nat.ltb_lt in E. split; [discriminate | lia].
    + apply Nat.ltb_ge in E. tauto.
  - intros ms' m Hdel Hnth.
    destruct (idx <? length ms)%nat eqn:E; [| discriminate].
    injection Hdel as <-. apply Nat.ltb_lt in E.
    assert (Hsplit : ms = firstn idx ms ++ m :: skipn (S idx) ms).
    { rewrite <- (firstn_skipn idx ms) at 1. f_equal.
      clear E. revert idx Hnth.
      induction ms as [|m0 ms IH]; intros [|idx] Hnth; simpl in Hnth;
        try discriminate.
      - injection Hnth as ->. reflexivity.
      - apply (IH idx Hnth). }
    split; [exact Hsplit | split; [reflexivity | split]].
    + rewrite Hsplit at 3. rewrite !length_app. simpl. lia.
    + intros sq Hm. rewrite Hsplit at 3. rewrite !scan_macros_app.
      simpl. rewrite Hm. reflexivity.
Qed.

Lemma delete_macro_keeps_other_matches_witness :
  _del_selected_macro [macro_A; macro_B] 0 = Some [macro_B]
  /\ scan_macros [U] [macro_B] = scan_macros [U] [macro_A; macro_B].
Proof.
  split; [reflexivity |].
  destruct (delete_macro_keeps_other_matches [macro_A; macro_B] 0)
    as (_ & Hdel).
  destruct (Hdel [macro_B] macro_A eq_refl eq_refl) as (_ & _ & _ & Hscan).
  apply Hscan. reflexivity.
Defined.


(* ------------------------------------------------------------------ *)
(** ** Debounce over a whole run *)

Lemma last_of_nonempty {A} (a : A) (l : list A) (d d' : A) :
  last (a :: l) d = last (a :: l) d'.
Proof.
  revert a. induction l as [|b l IH]; intros a; [reflexivity |].
  cbn [last]. apply (IH b).
Qed.

Section PacingFacts.
Context `{Libm}.

Variable cv : Canvas.

Lemma push_without_hit (e : GestureEngine) (t : float) (x y : Z) :
  hits (snd (push cv e t x y)) = [] ->
  last_accept_ts (fst (push cv e t x y)) = last_accept_ts e.
Proof.
  rewrite push_gate. cbv zeta.
  destruct (last_dir (observe cv e t x y)) as [d|].
  - destruct (_ || _ || _ || _).
    + intros _. apply observe_last_accept_ts.
    + rewrite accept_hits. discriminate.
  - intros _. apply observe_last_accept_ts.
Qed.

(** X18: debounce holds along every run.  Each hit of a run comes at a
    time that passes the debounce test against the time of the hit
    before it, the first against [last_accept_ts] as it was; and
    [last_accept_ts] ends as the time of the last hit, or as it was when
    there was none. *)
Theorem hits_of_a_run_are_paced (e : GestureEngine) (inp : list Sample) :
  paced (s e) (last_accept_ts e) (hit_times cv e inp)
  /\ last_accept_ts (fst (run cv e inp))
     = last (hit_times cv e inp) (last_accept_ts e)
  /\ length (hit_times cv e inp) = length (hits (snd (run cv e inp))).
Proof.
  revert e. induction inp as [|[[t x] y] inp IH]; intros e.
  - simpl. auto.
  - rewrite run_cons. cbn [hit_times fst snd].
    destruct (IH (fst (push cv e t x y))) as (IHp & IHl & IHn).
    rewrite hits_app, length_app.
    destruct (push_fields cv e t x y) as (Hs & _).
    destruct (push cv e t x y) as [e1 evs] eqn:Ep. cbn [fst snd] in *.
    destruct (hits evs) as [|d hs] eqn:Eh.
    + assert (Hts : last_accept_ts e1 = last_accept_ts e).
      { change e1 with (fst (e1, evs)). rewrite <- Ep.
        apply push_without_hit. rewrite Ep. cbn [snd]. exact Eh. }
      rewrite Hs, Hts in *. auto.
    + assert (Hne : hits (snd (push cv e t x y)) <> [])
        by (rewrite Ep; cbn [snd]; rewrite Eh; discriminate).
      destruct (push_hit_after_debounce cv e t x y Hne) as (Hdeb & Hts & _).
      rewrite Ep in Hts. cbn [fst] in Hts. rewrite Hs, Hts in *.
      assert (Hone : hs = []).
      { assert (Hev : evs = snd (push cv e t x y)) by (rewrite Ep; reflexivity).
        rewrite push_gate in Hev. cbv zeta in Hev.
        destruct (last_dir (observe cv e t x y)) as [d0|];
          [| subst evs; discriminate].
        destruct (_ || _ || _ || _); [subst evs; discriminate |].
        subst evs. rewrite accept_hits in Eh. injection Eh as _ <-.
        reflexivity. }
      subst hs. repeat split; auto.
      * rewrite IHl. cbn [last].
        destruct (hit_times cv e1 inp) as [|t1 ts]; [reflexivity |].
        apply last_of_nonempty.
      * cbn [length]. rewrite IHn. reflexivity.
Qed.

End PacingFacts.
